(** * Raw query result deserialisation and engine binary cache of prisma-client-py

    A shallow embedding of [prisma/_raw_query.py] and
    [prisma/binaries/binaries.py].

    Python objects travelling on the wire are values of [raw]; an object
    produced by a converter is a value of [out].  Exceptions are the
    [Raise] outcomes of the [result] monad.  Standard-library calls made by
    the module ([int], [Decimal], [datetime.fromisoformat], [json.dumps], ...)
    are the operations of the class [PyLib]; the general theorems hold for
    every implementation of it, and [cpython] is a reference implementation
    used to run the code on concrete rows.

    Strings are sequences of characters with code points below 256. *)

From Stdlib Require Import ZArith Ascii String DecimalString.
From stdpp Require Import base option list strings gmap.

Local Open Scope string_scope.
Local Open Scope list_scope.
Set Warnings "-register-all".

(** ** Exceptions and the result monad *)

Inductive exn :=
  | KeyError (key : string)
  | TypeError
  | ValueError
  | AttributeError
  | InvalidOperation
  | ValidationError
  | RecursionError.

Inductive result (A : Type) :=
  | Ok (a : A)
  | Raise (e : exn).
Arguments Ok {A} a.
Arguments Raise {A} e.

#[global] Instance result_ret : MRet result := @Ok.
#[global] Instance result_bind : MBind result := λ A B f m,
  match m with Ok a => f a | Raise e => Raise e end.
#[global] Instance result_fmap : FMap result := λ A B f m,
  match m with Ok a => Ok (f a) | Raise e => Raise e end.

Definition is_Ok {A} (m : result A) : bool :=
  match m with Ok _ => true | Raise _ => false end.

(** A [for] loop whose body may raise: the first exception ends the loop. *)
Fixpoint for_each {A B} (body : A → result B) (l : list A) : result (list B) :=
  match l with
  | [] => Ok []
  | x :: l => y ← body x; ys ← for_each body l; Ok (y :: ys)
  end.

Fixpoint for_fold {A S} (body : S → A → result S) (l : list A) (s : S) : result S :=
  match l with
  | [] => Ok s
  | x :: l => s' ← body s x; for_fold body l s'
  end.

(** ** Python dictionaries

    A [dict] keeps its items in insertion order; assigning to an existing key
    keeps the key's position. *)

Abbreviation dict V := (list (string * V)).

Fixpoint dict_get {V} (d : dict V) (key : string) : option V :=
  match d with
  | [] => None
  | (k, v) :: d => if String.eqb k key then Some v else dict_get d key
  end.

Fixpoint dict_setitem {V} (d : dict V) (key : string) (v : V) : dict V :=
  match d with
  | [] => [(key, v)]
  | (k, w) :: d =>
      if String.eqb k key then (k, v) :: d else (k, w) :: dict_setitem d key v
  end.

Definition keys {V} (d : dict V) : list string := d.*1.

(** ** Values of the library types built by the converters *)

(** [datetime.datetime]; [tzinfo] is the fixed UTC offset in microseconds. *)
Record datetime := {
  year : Z; month : Z; day : Z;
  hour : Z; minute : Z; second : Z; microsecond : Z;
  tzinfo : option Z
}.

(** [datetime.replace(tzinfo=None)]. *)
Definition replace_tzinfo_None (dt : datetime) : datetime :=
  {| year := year dt; month := month dt; day := day dt;
     hour := hour dt; minute := minute dt; second := second dt;
     microsecond := microsecond dt; tzinfo := None |}.

(** [decimal.Decimal]: sign, coefficient digits and exponent, or a special
    value. *)
Inductive decimal :=
  | DFinite (sign : bool) (int_ : string) (exp : Z)
  | DInfinity (sign : bool)
  | DNaN (sign : bool) (signaling : bool) (diag : string).

(** [prisma.fields.Base64], which keeps the encoded text. *)
Inductive base64 := Base64 (raw_ : string).

Section Wire.
Context {float : Type}.

(** ** Wire values

    What [json.loads] builds; [float] is the carrier of binary
    floating-point numbers, which this module never computes on. *)
Inductive raw :=
  | RNone
  | RBool (b : bool)
  | RInt (n : Z)
  | RFloat (f : float)
  | RStr (s : string)
  | RList (l : list raw)
  | RDict (d : list (string * raw)).

(** Objects returned by the converters. *)
Inductive out :=
  | ORaw (v : raw)
  | OInt (n : Z)
  | OBase64 (b : base64)
  | ODecimal (d : decimal)
  | ODatetime (d : datetime)
  | OList (l : list out)
  | OStr (s : string).

Fixpoint depth (v : raw) : nat :=
  match v with
  | RList l => S (list_max (map depth l))
  | RDict d => S (list_max (map (λ kv, depth (snd kv)) d))
  | _ => 0
  end.

Definition isinstance_str (v : raw) : bool :=
  match v with RStr _ => true | _ => false end.

(** [obj[key]] for a string [key]. *)
Definition getitem (obj : raw) (key : string) : result raw :=
  match obj with
  | RDict d =>
      match dict_get d key with
      | Some v => Ok v
      | None => Raise (KeyError key)
      end
  | _ => Raise TypeError
  end.

(** The items visited by [for entry in value]. *)
Definition iterate (value : raw) : result (list raw) :=
  match value with
  | RList l => Ok l
  | RStr s => Ok (map (λ c, RStr (String c "")) (list_ascii_of_string s))
  | RDict d => Ok (map (λ kv, RStr (fst kv)) d)
  | _ => Raise TypeError
  end.

(** [a == b] against a string constant. *)
Definition eq_str (v : raw) (s : string) : bool :=
  match v with RStr t => String.eqb t s | _ => false end.

(** [key in table] for a table with string keys: lists and dicts are
    unhashable. *)
Definition contains {V} (table : dict V) (key : raw) : result (option V) :=
  match key with
  | RStr s => Ok (dict_get table s)
  | RList _ | RDict _ => Raise TypeError
  | _ => Ok None
  end.

End Wire.
Arguments raw : clear implicits.
Arguments out : clear implicits.

(** ** The library operations the module calls *)

Class PyLib (float : Type) := {
  (** [int(value)] *)
  py_int : raw float → result Z;
  (** [str(value)] of an object that is not a [str] *)
  py_str : raw float → string;
  (** [Base64.fromb64(value)] *)
  fromb64 : raw float → result base64;
  (** [Decimal(value)] *)
  Decimal : raw float → result decimal;
  (** [datetime.fromisoformat(value)] *)
  fromisoformat : raw float → result datetime;
  (** [json.dumps(value)] *)
  json_dumps : raw float → string
}.

(** A model class: [model.parse_obj] builds an instance of [T] from a mapping
    or raises. *)
Definition model_class (float T : Type) := dict (out float) → result T.

(** What an entry point returns for one row: a plain mapping, or a model
    instance when a model was given. *)
Inductive row_result (float T : Type) :=
  | Mapping (d : dict (out float))
  | Instance_ (m : T).
Arguments Mapping {float T} d.
Arguments Instance_ {float T} m.

Section RawQuery.
Context {float : Type} `{L : PyLib float}.

Local Abbreviation raw := (raw float).
Local Abbreviation out := (out float).

(** *** The raw-parse path

    [_parse_value_rec fuel] is [_parse_value] run with room for [fuel] nested
    calls of itself: a call that finds no room raises [RecursionError], as
    the interpreter does past its recursion limit. *)

Fixpoint _parse_value_rec (fuel : nat) (raw_obj : raw) : result raw :=
  match fuel with
  | O => Raise RecursionError
  | S fuel =>
      value ← getitem raw_obj "prisma__value";
      prisma_type ← getitem raw_obj "prisma__type";
      if eq_str prisma_type "array" then
        entries ← iterate value;
        parsed ← for_each (_parse_value_rec fuel) entries;
        Ok (RList parsed)
      else Ok value
  end.

(** The recursion descends into [raw_obj]; its nesting depth bounds the
    number of nested calls.  [_parse_value] is the function with room for all
    of them: the recursion limit of the interpreter is no part of it, and what
    is stated of [_parse_value] is stated of the runs the limit does not cut
    short.  A run under a limit is [_parse_value_rec limit]. *)
Definition _parse_value (raw_obj : raw) : result raw :=
  _parse_value_rec (S (depth raw_obj)) raw_obj.

(** [raw_obj.items()] *)
Definition items (raw_obj : raw) : result (list (string * raw)) :=
  match raw_obj with
  | RDict d => Ok d
  | _ => Raise AttributeError
  end.

Definition _parse_prisma_obj (raw_obj : raw) : result (dict raw) :=
  its ← items raw_obj;
  for_fold (λ new_obj kv,
              v ← _parse_value (snd kv); Ok (dict_setitem new_obj (fst kv) v))
           its [].

Definition parse_raw_results {T} (raw_list : list raw)
    (model : option (model_class float T)) : result (list (row_result float T)) :=
  match model with
  | Some model =>
      for_each (λ entry,
                  d ← _parse_prisma_obj entry;
                  Instance_ <$> model (prod_map id ORaw <$> d)) raw_list
  | None =>
      for_each (λ entry,
                  d ← _parse_prisma_obj entry;
                  Ok (Mapping (prod_map id ORaw <$> d))) raw_list
  end.

(** *** The converters *)

Definition _deserialize_date (value : raw) (_for_model : bool) : result out :=
  dt ← fromisoformat value; Ok (ODatetime (replace_tzinfo_None dt)).

Definition _deserialize_datetime (value : raw) (_for_model : bool) : result out :=
  ODatetime <$> fromisoformat value.

Definition _deserialize_bigint (value : raw) (_for_model : bool) : result out :=
  OInt <$> py_int value.

Definition _deserialize_bytes (value : raw) (_for_model : bool) : result out :=
  OBase64 <$> fromb64 value.

Definition _deserialize_decimal (value : raw) (_for_model : bool) : result out :=
  ODecimal <$> Decimal value.

(** [format(value, '')], the replacement field of an f-string. *)
Definition format_ (value : raw) : string :=
  match value with RStr s => s | _ => py_str value end.

(** The f-string [f'1970-01-01T${value}Z']: the literal text [1970-01-01T$],
    the replacement field [{value}], the literal text [Z]. *)
Definition time_fstring (value : raw) : string :=
  "1970-01-01T$" +:+ format_ value +:+ "Z".

Definition _deserialize_time (value : raw) (_for_model : bool) : result out :=
  ODatetime <$> fromisoformat (RStr (time_fstring value)).

Definition _deserialize_json (value : raw) (for_model : bool) : result out :=
  if negb (isinstance_str value) && for_model then Ok (OStr (json_dumps value))
  else Ok (ORaw value).

(** *** The dispatch table

    [_deserialize_array] looks its own entry up in [DESERIALIZERS];
    [DESERIALIZERS_with] is the table with that entry left open. *)

Definition deserializer := raw → bool → result out.

Definition DESERIALIZERS_with (_deserialize_array : deserializer)
    : dict deserializer :=
  [ ("bigint", _deserialize_bigint);
    ("bytes", _deserialize_bytes);
    ("decimal", _deserialize_decimal);
    ("datetime", _deserialize_datetime);
    ("date", _deserialize_date);
    ("time", _deserialize_time);
    ("array", _deserialize_array);
    ("json", _deserialize_json) ].

(** The conditional expression
    [_deserializers[prisma_type](value, for_model)
       if prisma_type in _deserializers else value]
    of both loops. *)
Definition convert_or_pass (_deserializers : dict deserializer)
    (prisma_type value : raw) (for_model : bool) : result out :=
  found ← contains _deserializers prisma_type;
  match found with
  | Some deserialize => deserialize value for_model
  | None => Ok (ORaw value)
  end.

Fixpoint _deserialize_array_rec (fuel : nat) (value : raw) (for_model : bool)
    : result out :=
  match fuel with
  | O => Raise RecursionError
  | S fuel =>
      let _deserializers := DESERIALIZERS_with (_deserialize_array_rec fuel) in
      entries ← iterate value;
      arr ← for_each (λ entry,
                        prisma_type ← getitem entry "prisma__type";
                        prisma_value ← getitem entry "prisma__value";
                        convert_or_pass _deserializers prisma_type prisma_value
                                        for_model) entries;
      Ok (OList arr)
  end.

(** As for [_parse_value]: [_deserialize_array] has room for every nested
    call the value asks for, one for each level of arrays, and
    [_deserialize_array_rec limit] is the run with room for [limit] of them. *)
Definition _deserialize_array (value : raw) (for_model : bool) : result out :=
  _deserialize_array_rec (S (depth value)) value for_model.

Definition DESERIALIZERS : dict deserializer :=
  DESERIALIZERS_with _deserialize_array.

(** *** The full deserialisation path *)

Definition _deserialize_prisma_object {T} (raw_obj : raw) (for_model : bool)
    (model : option (model_class float T)) : result (row_result float T) :=
  let _deserializers := DESERIALIZERS in
  its ← items raw_obj;
  new_obj ← for_fold (λ new_obj kv,
                        let '(key, raw_value) := kv in
                        value ← getitem raw_value "prisma__value";
                        prisma_type ← getitem raw_value "prisma__type";
                        v ← convert_or_pass _deserializers prisma_type value
                                            for_model;
                        Ok (dict_setitem new_obj key v))
                     its [];
  match model with
  | Some model => Instance_ <$> model new_obj
  | None => Ok (Mapping new_obj)
  end.

Definition deserialize_raw_results {T} (raw_list : list raw)
    (model : option (model_class float T)) : result (list (row_result float T)) :=
  match model with
  | Some m => for_each (λ obj, _deserialize_prisma_object obj true (Some m)) raw_list
  | None => for_each (λ obj, _deserialize_prisma_object obj false None) raw_list
  end.

End RawQuery.

(** ** The engine binary cache ([prisma/binaries/binaries.py]) *)

Module Binaries.

Record Binary := { name : string; env : string }.

(** The process state the cache manager reads and changes: the environment
    variables, the paths that exist on disk, and the [download()] calls made
    so far, oldest first. *)
Record world := {
  environ : gmap string string;
  files : gset string;
  downloads : list Binary
}.

(** Truth value of [os.environ.get(name)]: set, and not the empty string. *)
Definition environ_get_truthy (environ : gmap string string) (name : string) : bool :=
  match environ !! name with
  | Some v => negb (String.eqb v "")
  | None => false
  end.

Definition uses_custom_binaries (environ : gmap string string) : bool :=
  if environ_get_truthy environ "PRISMA_QUERY_ENGINE_BINARY"
     && environ_get_truthy environ "PRISMA_MIGRATION_ENGINE_BINARY"
     && environ_get_truthy environ "PRISMA_INTROSPECTION_ENGINE_BINARY"
     && environ_get_truthy environ "PRISMA_FMT_BINARY"
  then true
  else false.

Section Cache.
(** [constants.PRISMA_CLI_NAME], [config.binary_cache_dir], the [path]
    property of a binary and the transfer done by [Binary.download] are
    defined outside this module. *)
Variable PRISMA_CLI_NAME : string.
Variable binary_cache_dir : string.
Variable path : gmap string string → Binary → string.
Variable fetch : Binary → gset string → result () * gset string.

Definition ENGINES : list Binary :=
  [ {| name := "query-engine"; env := "PRISMA_QUERY_ENGINE_BINARY" |};
    {| name := "migration-engine"; env := "PRISMA_MIGRATION_ENGINE_BINARY" |};
    {| name := "introspection-engine";
       env := "PRISMA_INTROSPECTION_ENGINE_BINARY" |};
    {| name := "prisma-fmt"; env := "PRISMA_FMT_BINARY" |} ].

Definition BINARIES : list Binary :=
  ENGINES ++ [ {| name := PRISMA_CLI_NAME; env := "PRISMA_CLI_BINARY" |} ].

(** [path.exists()] *)
Definition path_exists (w : world) (p : string) : bool :=
  bool_decide (p ∈ files w).

(** [binary.download()]: the call is recorded, then the transfer runs. *)
Definition download (binary : Binary) (w : world) : result () * world :=
  let '(r, files') := fetch binary (files w) in
  (r, {| environ := environ w; files := files';
         downloads := downloads w ++ [binary] |}).

(** The loop over the progress bar: one [download()] a binary, in list
    order, until one raises. *)
Fixpoint download_each (binaries : list Binary) (w : world) : result () * world :=
  match binaries with
  | [] => (Ok (), w)
  | binary :: binaries =>
      match download binary w with
      | (Ok _, w') => download_each binaries w'
      | (Raise e, w') => (Raise e, w')
      end
  end.

(** What the transfers of a list of binaries, run in list order until one
    raises, make of the files on disk, and how the run ends. *)
Fixpoint transfers (binaries : list Binary) (files : gset string)
    : result () * gset string :=
  match binaries with
  | [] => (Ok (), files)
  | binary :: binaries =>
      match fetch binary files with
      | (Ok _, files') => transfers binaries files'
      | (Raise e, files') => (Raise e, files')
      end
  end.

(** The binaries the first loop finds not cached. *)
Definition not_cached (w : world) : list Binary :=
  filter (λ binary, path_exists w (path (environ w) binary) = false) BINARIES.

Definition ensure_cached (w : world) : result string * world :=
  let binaries := not_cached w in
  if bool_decide (binaries = []) || uses_custom_binaries (environ w) then
    (Ok binary_cache_dir, w)
  else
    match download_each binaries w with
    | (Ok _, w') => (Ok binary_cache_dir, w')
    | (Raise e, w') => (Raise e, w')
    end.

(** [path.unlink()] of a file that exists. *)
Definition unlink (p : string) (w : world) : world :=
  {| environ := environ w; files := files w ∖ {[ p ]}; downloads := downloads w |}.

Definition remove_all (w : world) : world :=
  foldl (λ w binary,
           if path_exists w (path (environ w) binary)
           then unlink (path (environ w) binary) w
           else w)
        w BINARIES.

End Cache.

(** A cache directory and a transfer that always succeeds. *)
Definition cache_path (environ : gmap string string) (binary : Binary) : string :=
  "/cache/" +:+ name binary.

Definition fetch_to_cache (binary : Binary) (files : gset string)
    : result () * gset string :=
  (Ok (), {[ cache_path ∅ binary ]} ∪ files).

(** A cache holding the CLI tool and every engine but the query engine and
    the formatter. *)
Definition partly_cached : world :=
  {| environ := {[ "PRISMA_QUERY_ENGINE_BINARY" := "/opt/query-engine" ]};
     files := {[ "/cache/migration-engine"; "/cache/introspection-engine";
                 "/cache/prisma" ]};
     downloads := [] |}.

(** A transfer that fails on the formatter. *)
Definition fetch_but_fmt (binary : Binary) (files : gset string)
    : result () * gset string :=
  if String.eqb (name binary) "prisma-fmt" then (Raise ValueError, files)
  else fetch_to_cache binary files.

(** An empty cache, with the four engine variables set. *)
Definition all_overridden : world :=
  {| environ := {[ "PRISMA_QUERY_ENGINE_BINARY" := "/opt/query-engine";
                   "PRISMA_MIGRATION_ENGINE_BINARY" := "/opt/migration-engine";
                   "PRISMA_INTROSPECTION_ENGINE_BINARY" := "/opt/introspection-engine";
                   "PRISMA_FMT_BINARY" := "/opt/prisma-fmt" ]};
     files := ∅;
     downloads := [] |}.

End Binaries.

(** ** A reference implementation of the library operations

    The operations follow CPython on the float-free values [raw Empty_set],
    for the texts the concrete runs below use.  The reference is narrower or
    wider than CPython at the edges: [int] has no bound on the number of
    digits, where CPython 3.11 refuses more than 4300; [Decimal] takes any
    exponent, where CPython raises [InvalidOperation] past its exponent range;
    [fromisoformat] takes the extended format only.  The general theorems hold
    for every implementation of [PyLib] and do not depend on it. *)

Module CPython.

Local Open Scope Z_scope.

Definition code (c : ascii) : Z := Z.of_N (N_of_ascii c).

Definition is_digit (c : ascii) : bool := (48 <=? code c) && (code c <=? 57).

Definition digit_value (c : ascii) : Z := code c - 48.

(** [str.isspace] on one character. *)
Definition is_space (c : ascii) : bool :=
  let n := code c in
  ((9 <=? n) && (n <=? 13)) || ((28 <=? n) && (n <=? 32))
  || (n =? 133) || (n =? 160).

Definition lower (c : ascii) : ascii :=
  let n := code c in
  if (65 <=? n) && (n <=? 90) then ascii_of_N (Z.to_N (n + 32)) else c.

Fixpoint lstrip (l : list ascii) : list ascii :=
  match l with
  | c :: l' => if is_space c then lstrip l' else l
  | [] => []
  end.

(** [str.strip()] *)
Definition strip (l : list ascii) : list ascii :=
  reverse (lstrip (reverse (lstrip l))).

(** The longest prefix of decimal digits, and what follows it. *)
Fixpoint span_digits (l : list ascii) : list ascii * list ascii :=
  match l with
  | c :: l' =>
      if is_digit c then
        let '(ds, r) := span_digits l' in (c :: ds, r)
      else ([], l)
  | [] => ([], [])
  end.

Definition all_digits (l : list ascii) : bool := forallb is_digit l.

(** The number written by a digit string. *)
Definition number (ds : list ascii) : Z :=
  fold_left (λ n c, 10 * n + digit_value c) ds 0.

Fixpoint lstrip_zeros (ds : list ascii) : list ascii :=
  match ds with
  | c :: ds' => if Ascii.eqb c "0"%char then lstrip_zeros ds' else ds
  | [] => []
  end.

(** [str(int(ds))] for a digit string [ds]. *)
Definition normal_digits (ds : list ascii) : list ascii :=
  match lstrip_zeros ds with
  | [] => ["0"%char]
  | ds' => ds'
  end.

(** [str(n)] for an integer. *)
Definition str_of_Z (n : Z) : string :=
  DecimalString.NilZero.string_of_int (Z.to_int n).

(** *** [int] *)

(** Digits separated by single underscores; the underscores are dropped. *)
Fixpoint digits_with_underscores (after_digit : bool) (l : list ascii)
    : option (list ascii) :=
  match l with
  | [] => if after_digit then Some [] else None
  | c :: l' =>
      if is_digit c then cons c <$> digits_with_underscores true l'
      else if Ascii.eqb c "_"%char then
        if after_digit then digits_with_underscores false l' else None
      else None
  end.

(** An optional sign, and the text after it. *)
Definition split_sign (l : list ascii) : bool * list ascii :=
  match l with
  | c :: r =>
      if Ascii.eqb c "-"%char then (true, r)
      else if Ascii.eqb c "+"%char then (false, r)
      else (false, l)
  | [] => (false, [])
  end.

Definition int_of_string (s : string) : result Z :=
  let '(negative, l) := split_sign (strip (list_ascii_of_string s)) in
  match digits_with_underscores false l with
  | Some ds => Ok (if negative then - number ds else number ds)
  | None => Raise ValueError
  end.

Definition Z_of_bool (b : bool) : Z := if b then 1 else 0.

Definition py_int (value : raw Empty_set) : result Z :=
  match value with
  | RStr s => int_of_string s
  | RInt n => Ok n
  | RBool b => Ok (Z_of_bool b)
  | RFloat f => match f with end
  | _ => Raise TypeError
  end.

(** *** [Base64.fromb64] *)

(** Modelled from the spec: [Base64.fromb64] of [prisma/fields.py], which is
    not among the sources: the payload is wrapped so that it round-trips back
    to base64 on serialisation.  An object without an [encode] method raises
    [AttributeError]. *)
Definition fromb64 (value : raw Empty_set) : result base64 :=
  match value with
  | RStr s => Ok (Base64 s)
  | RFloat f => match f with end
  | _ => Raise AttributeError
  end.

(** *** [decimal.Decimal] *)

(** The optional exponent part, [E], a sign and digits, up to the end of the
    text. *)
Definition parse_exponent (l : list ascii) : option Z :=
  match l with
  | [] => Some 0
  | e :: r =>
      if Ascii.eqb (lower e) "e"%char then
        let '(negative, ds) := split_sign r in
        match ds with
        | [] => None
        | _ => if all_digits ds
               then Some (if negative then - number ds else number ds)
               else None
        end
      else None
  end.

(** The numeric alternative of the literal syntax: integer digits, then
    optionally a point and fraction digits, with at least one digit in all,
    then optionally an exponent. *)
Definition parse_finite (sign : bool) (l : list ascii) : option decimal :=
  let '(intpart, r1) := span_digits l in
  let '(fracpart, r2) :=
    match r1 with
    | "."%char :: r => span_digits r
    | _ => ([], r1)
    end in
  match intpart ++ fracpart with
  | [] => None
  | ds =>
      e ← parse_exponent r2;
      Some (DFinite sign (string_of_list_ascii (normal_digits ds))
                    (e - Z.of_nat (length fracpart)))
  end.

(** The alternatives [Inf], [Infinity], and [NaN] or [sNaN] with diagnostic
    digits; letters in either case. *)
Definition parse_special (sign : bool) (l : list ascii) : option decimal :=
  let w := string_of_list_ascii (map lower l) in
  if String.eqb w "inf" || String.eqb w "infinity" then Some (DInfinity sign)
  else
    let '(signaling, r) :=
      match map lower l with
      | "s"%char :: r => (true, r)
      | r => (false, r)
      end in
    match r with
    | "n"%char :: "a"%char :: "n"%char :: diag =>
        if all_digits diag
        then Some (DNaN sign signaling (string_of_list_ascii (lstrip_zeros diag)))
        else None
    | _ => None
    end.

Definition Decimal_of_string (s : string) : result decimal :=
  let l := filter (λ c, c ≠ "_"%char) (strip (list_ascii_of_string s)) in
  let '(sign, body) := split_sign l in
  match parse_finite sign body with
  | Some d => Ok d
  | None =>
      match parse_special sign body with
      | Some d => Ok d
      | None => Raise InvalidOperation
      end
  end.

Definition Decimal_of_Z (n : Z) : decimal :=
  DFinite (n <? 0) (str_of_Z (Z.abs n)) 0.

(** [Decimal] of a three-element sequence [(sign, digits, exponent)], the
    [as_tuple] form. *)
Definition Decimal_of_sequence (l : list (raw Empty_set)) : result decimal :=
  match l with
  | [s; ds; e] =>
      sign ← match s with
             | RInt 0 => Ok false
             | RInt 1 => Ok true
             | RBool b => Ok b
             | _ => Raise ValueError
             end;
      digits ← match ds with
               | RList ds =>
                   for_each (λ d, match d with
                                  | RInt n => if (0 <=? n) && (n <=? 9)
                                              then Ok (ascii_of_N (Z.to_N (n + 48)))
                                              else Raise ValueError
                                  | RBool b => Ok (if b then "1"%char else "0"%char)
                                  | _ => Raise ValueError
                                  end) ds
               | _ => Raise ValueError
               end;
      match e with
      | RStr "F" => Ok (DInfinity sign)
      | RStr "n" => Ok (DNaN sign false (string_of_list_ascii (lstrip_zeros digits)))
      | RStr "N" => Ok (DNaN sign true (string_of_list_ascii (lstrip_zeros digits)))
      | RInt n => Ok (DFinite sign (string_of_list_ascii (normal_digits digits)) n)
      | RBool b =>
          Ok (DFinite sign (string_of_list_ascii (normal_digits digits)) (Z_of_bool b))
      | _ => Raise ValueError
      end
  | _ => Raise ValueError
  end.

Definition Decimal (value : raw Empty_set) : result decimal :=
  match value with
  | RStr s => Decimal_of_string s
  | RInt n => Ok (Decimal_of_Z n)
  | RBool b => Ok (Decimal_of_Z (Z_of_bool b))
  | RList l => Decimal_of_sequence l
  | RFloat f => match f with end
  | _ => Raise TypeError
  end.

Definition zeros (n : Z) : list ascii := replicate (Z.to_nat n) "0"%char.

Definition sign_text (sign : bool) : string := if sign then "-" else "".

(** ["%+d" % n] *)
Definition signed_text (n : Z) : string :=
  if n <? 0 then str_of_Z n else "+" +:+ str_of_Z n.

(** [str(d)], scientific notation where the exponent calls for it. *)
Definition Decimal_str (d : decimal) : string :=
  match d with
  | DInfinity sign => sign_text sign +:+ "Infinity"
  | DNaN sign signaling diag =>
      sign_text sign +:+ (if signaling then "sNaN" else "NaN") +:+ diag
  | DFinite sign int_ exp =>
      let digits := list_ascii_of_string int_ in
      let len := Z.of_nat (length digits) in
      let leftdigits := exp + len in
      let dotplace :=
        if (exp <=? 0) && (-6 <? leftdigits) then leftdigits else 1 in
      let '(intpart, fracpart) :=
        if dotplace <=? 0 then
          (["0"%char], "."%char :: zeros (- dotplace) ++ digits)
        else if len <=? dotplace then
          (digits ++ zeros (dotplace - len), [])
        else
          (take (Z.to_nat dotplace) digits,
           "."%char :: drop (Z.to_nat dotplace) digits) in
      let exp_text :=
        if leftdigits =? dotplace then ""
        else "E" +:+ signed_text (leftdigits - dotplace) in
      sign_text sign +:+ string_of_list_ascii (intpart ++ fracpart) +:+ exp_text
  end.

(** *** [datetime.fromisoformat]

    The format [YYYY-MM-DD[*HH[:MM[:SS[.fff[fff]]]][Z|(+|-)HH:MM[:SS[.ffffff]]]]]
    with [*] any one character.  Other ISO 8601 spellings (basic format, week
    dates, a fraction of other than three or six digits) are rejected here;
    CPython 3.11 accepts them. *)

Definition digits_value (ds : list ascii) : option Z :=
  if all_digits ds then Some (number ds) else None.

Definition is_leap (y : Z) : bool :=
  (y mod 4 =? 0) && (negb (y mod 100 =? 0) || (y mod 400 =? 0)).

Definition days_in_month (y m : Z) : Z :=
  if m =? 2 then (if is_leap y then 29 else 28)
  else if (m =? 4) || (m =? 6) || (m =? 9) || (m =? 11) then 30
  else 31.

(** [HH[:MM[:SS[.fff[fff]]]]] as hour, minute, second, microsecond. *)
Definition parse_hh_mm_ss_ff (l : list ascii) : option (Z * Z * Z * Z) :=
  match l with
  | h1 :: h2 :: r =>
      h ← digits_value [h1; h2];
      match r with
      | [] => Some (h, 0, 0, 0)
      | c1 :: m1 :: m2 :: r =>
          if negb (Ascii.eqb c1 ":"%char) then None else
          m ← digits_value [m1; m2];
          match r with
          | [] => Some (h, m, 0, 0)
          | c2 :: s1 :: s2 :: frac =>
              if negb (Ascii.eqb c2 ":"%char) then None else
              s ← digits_value [s1; s2];
              match frac with
              | [] => Some (h, m, s, 0)
              | p :: ds =>
                  if negb (Ascii.eqb p "."%char) then None else
                  f ← digits_value ds;
                  if (length ds =? 3)%nat then Some (h, m, s, f * 1000)
                  else if (length ds =? 6)%nat then Some (h, m, s, f)
                  else None
              end
          | _ => None
          end
      | _ => None
      end
  | _ => None
  end.

(** The UTC offset in microseconds written by the text after the time. *)
Definition parse_tz (l : list ascii) : option (option Z) :=
  match l with
  | [] => Some None
  | ["Z"%char] => Some (Some 0)
  | c :: off =>
      if Ascii.eqb c "+"%char || Ascii.eqb c "-"%char then
        '(h, m, s, us) ← parse_hh_mm_ss_ff off;
        let d := ((h * 3600 + m * 60 + s) * 1000000 + us) in
        if d <? 86400 * 1000000
        then Some (Some (if Ascii.eqb c "-"%char then - d else d))
        else None
      else None
  end.

(** The time text up to the offset sign or [Z], and the rest. *)
Fixpoint split_tz (l : list ascii) : list ascii * list ascii :=
  match l with
  | [] => ([], [])
  | c :: l' =>
      if Ascii.eqb c "+"%char || Ascii.eqb c "-"%char || Ascii.eqb c "Z"%char
      then ([], l)
      else let '(t, z) := split_tz l' in (c :: t, z)
  end.

Definition fromisoformat_string (date_string : string) : result datetime :=
  match list_ascii_of_string date_string with
  | y1 :: y2 :: y3 :: y4 :: "-"%char :: m1 :: m2 :: "-"%char :: d1 :: d2 :: rest =>
      let parsed :=
        y ← digits_value [y1; y2; y3; y4];
        m ← digits_value [m1; m2];
        d ← digits_value [d1; d2];
        '(hh, mi, ss, us, tz) ←
          match rest with
          | [] => Some (0, 0, 0, 0, None)
          | _sep :: tstr =>
              let '(t, z) := split_tz tstr in
              '(hh, mi, ss, us) ← parse_hh_mm_ss_ff t;
              tz ← parse_tz z;
              Some (hh, mi, ss, us, tz)
          end;
        if (1 <=? y) && (1 <=? m) && (m <=? 12) && (1 <=? d)
           && (d <=? days_in_month y m)
           && (hh <=? 23) && (mi <=? 59) && (ss <=? 59)
        then Some {| year := y; month := m; day := d;
                     hour := hh; minute := mi; second := ss;
                     microsecond := us; tzinfo := tz |}
        else None in
      match parsed with
      | Some dt => Ok dt
      | None => Raise ValueError
      end
  | _ => Raise ValueError
  end.

Definition fromisoformat (value : raw Empty_set) : result datetime :=
  match value with
  | RStr s => fromisoformat_string s
  | RFloat f => match f with end
  | _ => Raise TypeError
  end.

(** *** [str] and [json.dumps] *)

Definition hex_digit (n : Z) : ascii :=
  ascii_of_N (Z.to_N (if n <? 10 then 48 + n else 87 + n)).

Definition hex2 (n : Z) : list ascii := [hex_digit (n / 16); hex_digit (n mod 16)].

Definition dquote : ascii := "034"%char.

(** [str.isprintable] on one character. *)
Definition is_printable (c : ascii) : bool :=
  let n := code c in
  ((32 <=? n) && (n <=? 126)) || ((161 <=? n) && negb (n =? 173)).

Definition repr_char (quote c : ascii) : list ascii :=
  let n := code c in
  if Ascii.eqb c quote || Ascii.eqb c "\"%char then ["\"%char; c]
  else if n =? 9 then ["\"%char; "t"%char]
  else if n =? 10 then ["\"%char; "n"%char]
  else if n =? 13 then ["\"%char; "r"%char]
  else if is_printable c then [c]
  else "\"%char :: "x"%char :: hex2 n.

(** [repr(s)] of a string: single quotes, unless the text has a single quote
    and no double quote. *)
Definition repr_str (s : string) : string :=
  let l := list_ascii_of_string s in
  let quote :=
    if existsb (Ascii.eqb "'"%char) l && negb (existsb (Ascii.eqb dquote) l)
    then dquote else "'"%char in
  string_of_list_ascii (quote :: concat (map (repr_char quote) l) ++ [quote]).

Fixpoint repr (v : raw Empty_set) : string :=
  match v with
  | RNone => "None"
  | RBool b => if b then "True" else "False"
  | RInt n => str_of_Z n
  | RFloat f => match f with end
  | RStr s => repr_str s
  | RList l => "[" +:+ String.concat ", " (map repr l) +:+ "]"
  | RDict d =>
      "{" +:+ String.concat ", "
                (map (λ kv, repr_str (fst kv) +:+ ": " +:+ repr (snd kv)) d)
          +:+ "}"
  end.

(** [str(v)]. *)
Definition py_str (v : raw Empty_set) : string :=
  match v with
  | RStr s => s
  | _ => repr v
  end.

Definition json_char (c : ascii) : list ascii :=
  let n := code c in
  if Ascii.eqb c dquote || Ascii.eqb c "\"%char then ["\"%char; c]
  else if n =? 10 then ["\"%char; "n"%char]
  else if n =? 13 then ["\"%char; "r"%char]
  else if n =? 9 then ["\"%char; "t"%char]
  else if n =? 8 then ["\"%char; "b"%char]
  else if n =? 12 then ["\"%char; "f"%char]
  else if (32 <=? n) && (n <=? 126) then [c]
  else "\"%char :: "u"%char :: "0"%char :: "0"%char :: hex2 n.

Definition json_str (s : string) : string :=
  string_of_list_ascii
    (dquote :: concat (map json_char (list_ascii_of_string s)) ++ [dquote]).

(** [json.dumps(v)] with the default separators and [ensure_ascii]. *)
Fixpoint json_dumps (v : raw Empty_set) : string :=
  match v with
  | RNone => "null"
  | RBool b => if b then "true" else "false"
  | RInt n => str_of_Z n
  | RFloat f => match f with end
  | RStr s => json_str s
  | RList l => "[" +:+ String.concat ", " (map json_dumps l) +:+ "]"
  | RDict d =>
      "{" +:+ String.concat ", "
                (map (λ kv, json_str (fst kv) +:+ ": " +:+ json_dumps (snd kv)) d)
          +:+ "}"
  end.

End CPython.

Definition cpython : PyLib Empty_set :=
  {| py_int := CPython.py_int;
     py_str := CPython.py_str;
     fromb64 := CPython.fromb64;
     Decimal := CPython.Decimal;
     fromisoformat := CPython.fromisoformat;
     json_dumps := CPython.json_dumps |}.

(** ** Vocabulary of the statements *)

Section Vocabulary.
Context {float : Type} `{L : PyLib float}.
Local Abbreviation raw := (raw float).
Local Abbreviation out := (out float).

(** The wire unit [{prisma__type: tag, prisma__value: value}]. *)
Definition tagged (tag : string) (value : raw) : raw :=
  RDict [("prisma__type", RStr tag); ("prisma__value", value)].

(** The body of the loop of [_deserialize_array]. *)
Definition deserialize_entry (for_model : bool) (entry : raw) : result out :=
  prisma_type ← getitem entry "prisma__type";
  prisma_value ← getitem entry "prisma__value";
  convert_or_pass DESERIALIZERS prisma_type prisma_value for_model.

(** What the loop of [_deserialize_prisma_object] assigns to a key. *)
Definition deserialize_field (for_model : bool) (raw_value : raw) : result out :=
  value ← getitem raw_value "prisma__value";
  prisma_type ← getitem raw_value "prisma__type";
  convert_or_pass DESERIALIZERS prisma_type value for_model.

(** A leaf lacks a sub-field, or is an array holding such a leaf. *)
Inductive malformed : raw → Prop :=
  | malformed_leaf d :
      dict_get d "prisma__value" = None ∨ dict_get d "prisma__type" = None →
      malformed (RDict d)
  | malformed_in_array d l entry :
      dict_get d "prisma__type" = Some (RStr "array") →
      dict_get d "prisma__value" = Some (RList l) →
      entry ∈ l → malformed entry →
      malformed (RDict d).

(** The sub-field whose lookup fails first in [_deserialize_prisma_object]. *)
Definition missing_subfield (d : dict raw) : string :=
  match dict_get d "prisma__value" with
  | None => "prisma__value"
  | Some _ => "prisma__type"
  end.

(** A leaf has both sub-fields, and under the tag [array] its value is a
    list of such leaves. *)
Inductive well_tagged : raw → Prop :=
  | well_tagged_scalar d prisma_type value :
      dict_get d "prisma__type" = Some prisma_type →
      dict_get d "prisma__value" = Some value →
      eq_str prisma_type "array" = false →
      well_tagged (RDict d)
  | well_tagged_array d l :
      dict_get d "prisma__type" = Some (RStr "array") →
      dict_get d "prisma__value" = Some (RList l) →
      (∀ entry, entry ∈ l → well_tagged entry) →
      well_tagged (RDict d).

End Vocabulary.

(** A decimal literal in plain notation: an optional minus sign, the integer
    digits, and a point with the fraction digits when there are any. *)
Definition plain_literal (negative : bool) (intpart fracpart : list ascii) : string :=
  string_of_list_ascii
    ((if negative then ["-"%char] else [])
       ++ intpart
       ++ match fracpart with [] => [] | _ => "."%char :: fracpart end).

(** The number of zeros a digit string starts with. *)
Definition leading_zeros (ds : list ascii) : nat :=
  length ds - length (CPython.lstrip_zeros ds).

(** ** Vocabulary of the statements about the rest of the module *)

Section MoreVocabulary.
Context {float : Type} `{L : PyLib float}.
Local Abbreviation raw := (raw float).
Local Abbreviation out := (out float).

(** The flag [deserialize_raw_results] passes down: true with a model. *)
Definition for_model_of {T} (model : option (model_class float T)) : bool :=
  match model with Some _ => true | None => false end.

(** What [parse_raw_results] makes of the mapping of one row. *)
Definition parsed_row {T} (model : option (model_class float T))
    (d : dict raw) : result (row_result float T) :=
  match model with
  | Some model => Instance_ <$> model (prod_map id ORaw <$> d)
  | None => Ok (Mapping (prod_map id ORaw <$> d))
  end.

(** Some dictionary inside the value carries the tag [json]. *)
Fixpoint mentions_json (v : raw) : bool :=
  match v with
  | RList l => existsb mentions_json l
  | RDict d =>
      match dict_get d "prisma__type" with
      | Some prisma_type => eq_str prisma_type "json"
      | None => false
      end
      || existsb (λ kv, mentions_json (snd kv)) d
  | _ => false
  end.

(** The wire value a converted object stands for, when no converter built
    part of it: a list made by [_deserialize_array] is the list of its
    items. *)
Fixpoint unconverted (o : out) : option raw :=
  match o with
  | ORaw v => Some v
  | OList l =>
      RList <$> (fix go (l : list out) : option (list raw) :=
                   match l with
                   | [] => Some []
                   | o :: l => v ← unconverted o; vs ← go l; Some (v :: vs)
                   end) l
  | _ => None
  end.

(** A leaf whose tag, and the tags of the entries under [array], are strings
    outside the table. *)
Inductive pass_through : raw → Prop :=
  | pass_through_scalar d tag value :
      dict_get d "prisma__type" = Some (RStr tag) →
      dict_get d "prisma__value" = Some value →
      dict_get DESERIALIZERS tag = None →
      pass_through (RDict d)
  | pass_through_array d l :
      dict_get d "prisma__type" = Some (RStr "array") →
      dict_get d "prisma__value" = Some (RList l) →
      (∀ entry, entry ∈ l → pass_through entry) →
      pass_through (RDict d).

End MoreVocabulary.

(** ** The raw-parse path under a recursion limit *)

Section RecursionLimit.
Context {float : Type}.
Local Abbreviation raw := (raw float).

(** [_parse_prisma_obj] when there is room for [limit] nested calls of
    [_parse_value] on each leaf. *)
Definition _parse_prisma_obj_within (limit : nat) (raw_obj : raw)
    : result (dict raw) :=
  its ← items raw_obj;
  for_fold (λ new_obj kv,
              v ← _parse_value_rec limit (snd kv);
              Ok (dict_setitem new_obj (fst kv) v))
           its [].

End RecursionLimit.

(** ** Concrete leaves and rows *)

Definition row_bad_bigint_then_malformed : raw Empty_set :=
  RDict [ ("a", tagged "bigint" (RStr "x"));
          ("b", RDict [("prisma__type", RStr "int")]) ].

Definition leaf_bigint : raw Empty_set := tagged "bigint" (RStr "12345678901234567890").

Definition leaf_array : raw Empty_set :=
  tagged "array" (RList [tagged "bigint" (RStr "1");
                         tagged "array" (RList [tagged "int" (RInt 2)])]).

Definition row_unmapped : list (string * raw Empty_set) :=
  [ ("id", tagged "bigint" (RStr "7")); ("kind", tagged "geometry" (RStr "POINT(1 2)")) ].

Definition row_two_fields : list (string * raw Empty_set) :=
  [ ("id", tagged "bigint" (RStr "7")); ("name", tagged "string" (RStr "Ada")) ].

Definition row_missing_value : list (string * raw Empty_set) :=
  [ ("id", tagged "bigint" (RStr "7")); ("name", RDict [("prisma__type", RStr "string")]) ].

Definition new_year_plus_two : datetime :=
  {| year := 2023; month := 1; day := 1;
     hour := 0; minute := 0; second := 0; microsecond := 0;
     tzinfo := Some 7200000000%Z |}.

Definition rows_bigint_datetime : list (raw Empty_set) :=
  [ RDict [ ("id", tagged "bigint" (RStr "1"));
            ("at", tagged "datetime" (RStr "2023-01-01T00:00:00+02:00")) ];
    RDict [ ("id", tagged "bigint" (RStr "2"));
            ("at", tagged "datetime" (RStr "2023-01-02T00:00:00")) ] ].

Definition row_second_field_bad : list (string * raw Empty_set) :=
  [ ("id", tagged "bigint" (RStr "7"));
    ("n", tagged "bigint" (RStr "x"));
    ("later", RDict [("prisma__type", RStr "int")]) ].

Definition leaf_list_tag : raw Empty_set :=
  RDict [ ("prisma__type", RList []); ("prisma__value", RInt 1) ].

Definition row_plain : list (string * raw Empty_set) :=
  [ ("n", tagged "int" (RInt 1));
    ("xs", tagged "array" (RList [tagged "int" (RInt 2); tagged "string" (RStr "a")])) ].

Definition row_with_time : list (string * raw Empty_set) :=
  [ ("id", tagged "bigint" (RStr "7")); ("opens", tagged "time" (RStr "09:00:00")) ].

Definition row_unparsable_bigint : list (string * raw Empty_set) :=
  [ ("id", tagged "bigint" (RStr "x")); ("name", tagged "string" (RStr "Ada")) ].

Definition leaf_missing_in_array : raw Empty_set :=
  tagged "array" (RList [tagged "int" (RInt 1); RDict [("prisma__value", RInt 2)]]).

(** * Properties of the deserialiser *)

Section LoopFacts.
Context {A B : Type}.

Lemma for_each_ext (f g : A → result B) (l : list A) :
  (∀ x, x ∈ l → f x = g x) → for_each f l = for_each g l.
Proof.
  induction l as [|x l IH]; intros Hfg; [reflexivity|].
  cbn [for_each]. rewrite (Hfg x) by left.
  rewrite IH; [reflexivity|]. intros y Hy. apply Hfg. by right.
Qed.

Lemma for_each_Ok_length (f : A → result B) l ys :
  for_each f l = Ok ys → length ys = length l.
Proof.
  revert ys. induction l as [|x l IH]; intros ys; cbn [for_each].
  - by intros [= <-].
  - destruct (f x) as [y|e]; [|done]. cbn.
    destruct (for_each f l) as [ys'|e]; [|done]. cbn.
    intros [= <-]. cbn. f_equal. by apply IH.
Qed.

Lemma for_each_Ok_lookup (f : A → result B) l ys i x :
  for_each f l = Ok ys → l !! i = Some x →
  ∃ y, f x = Ok y ∧ ys !! i = Some y.
Proof.
  revert ys i. induction l as [|x0 l IH]; intros ys i; cbn [for_each]; [done|].
  destruct (f x0) as [y0|e] eqn:Hx0; [|done]. cbn.
  destruct (for_each f l) as [ys'|e]; [|done]. cbn.
  intros [= <-]. destruct i as [|i]; cbn.
  - intros [= <-]. eauto.
  - intros Hi. by apply IH.
Qed.

(** A loop raises as soon as one body does. *)
Lemma for_each_Raise (f : A → result B) l x e :
  x ∈ l → f x = Raise e → ∃ e', for_each f l = Raise e'.
Proof.
  intros Hx Hfx. induction Hx as [x l|x y l Hx IH]; cbn [for_each].
  - rewrite Hfx. cbn. eauto.
  - destruct (f y) as [v|e1]; cbn; [|eauto].
    destruct (IH Hfx) as [e' ->]. cbn. eauto.
Qed.

Lemma for_each_Raise_inv (f : A → result B) l e :
  for_each f l = Raise e → ∃ x, x ∈ l ∧ f x = Raise e.
Proof.
  induction l as [|x l IH]; cbn [for_each]; [done|].
  destruct (f x) as [y|e1] eqn:Hx; cbn.
  - destruct (for_each f l) as [ys|e2]; cbn; [done|].
    intros [= ->]. destruct (IH eq_refl) as (x' & Hin & Hx').
    exists x'. split; [by right|done].
  - intros [= ->]. exists x. split; [left|done].
Qed.

(** A loop succeeds when every body does. *)
Lemma for_each_all_Ok (f : A → result B) l :
  Forall (λ x, is_Ok (f x) = true) l → is_Ok (for_each f l) = true.
Proof.
  induction 1 as [|x l Hx _ IH]; cbn [for_each]; [done|].
  destruct (f x); [|done]. cbn. destruct (for_each f l); done.
Qed.

(** And only then. *)
Lemma for_each_Ok_Forall (f : A → result B) l :
  is_Ok (for_each f l) = true → Forall (λ x, is_Ok (f x) = true) l.
Proof.
  induction l as [|x l IH]; cbn [for_each]; [constructor|].
  destruct (f x) as [y|e] eqn:Hx; [|done]. cbn.
  destruct (for_each f l) as [ys|e]; [|done]. intros _.
  constructor; [by rewrite Hx|by apply IH].
Qed.

(** Two loops whose bodies agree except where the first raises [e] agree
    except where the first raises [e]. *)
Lemma for_each_agrees_or (f g : A → result B) (l : list A) e :
  (∀ x, x ∈ l → f x = Raise e ∨ f x = g x) →
  for_each f l = Raise e ∨ for_each f l = for_each g l.
Proof.
  induction l as [|x l IH]; intros Hfg; [by right|].
  cbn [for_each]. destruct (Hfg x) as [->| <-]; [left|by left|].
  destruct (f x) as [y|e1]; [|by right]. cbn [mbind result_bind].
  destruct IH as [->| <-]; [intros z Hz; apply Hfg; by right|by left|by right].
Qed.

End LoopFacts.

Section DepthFacts.
Context {float : Type}.
Local Abbreviation raw := (raw float).

Lemma list_max_elem (l : list nat) (n : nat) : n ∈ l → (n ≤ list_max l)%nat.
Proof.
  induction 1 as [n l|n m l _ IH]; change (list_max (?x :: l)) with (Nat.max x (list_max l)); lia.
Qed.

Lemma depth_entry (l : list raw) e : e ∈ l → (depth e < depth (RList l))%nat.
Proof.
  intros He. cbn. apply Nat.lt_succ_r, list_max_elem.
  apply list_elem_of_In, in_map, list_elem_of_In, He.
Qed.

Lemma depth_dict_get (d : dict raw) key v :
  dict_get d key = Some v → (depth v < depth (RDict d))%nat.
Proof.
  intros Hv. cbn. apply Nat.lt_succ_r. unfold list_max.
  induction d as [|[k w] d IH]; [done|]. cbn in Hv |- *.
  destruct (String.eqb k key).
  - injection Hv as ->. lia.
  - specialize (IH Hv). lia.
Qed.

Lemma depth_field (d : dict raw) kv : kv ∈ d → (depth kv.2 < depth (RDict d))%nat.
Proof.
  intros Hkv. cbn. apply Nat.lt_succ_r, list_max_elem.
  apply list_elem_of_In, (in_map (λ kv, depth kv.2)), list_elem_of_In, Hkv.
Qed.

Lemma depth_getitem (obj : raw) key v :
  getitem obj key = Ok v → (depth v < depth obj)%nat.
Proof.
  destruct obj as [| | | | |l|d]; try done. unfold getitem.
  destruct (dict_get d key) as [w|] eqn:Hw; [|done].
  intros [= <-]. by eapply depth_dict_get.
Qed.

Lemma depth_iterate (value : raw) entries e :
  iterate value = Ok entries → e ∈ entries → (depth e ≤ depth value)%nat.
Proof.
  destruct value as [| | | |s|l|d]; try done; intros [= <-] He.
  - apply list_elem_of_In, in_map_iff in He as (c & <- & _). cbn. lia.
  - apply depth_entry in He. lia.
  - apply list_elem_of_In, in_map_iff in He as (c & <- & _). cbn. lia.
Qed.

End DepthFacts.

Section RecursionFacts.
Context {float : Type} `{L : PyLib float}.
Local Abbreviation raw := (raw float).
Local Abbreviation out := (out float).

(** Enough fuel: above the nesting depth, the amount no longer matters. *)
Lemma _parse_value_rec_fuel n m (raw_obj : raw) :
  (depth raw_obj < n)%nat → (depth raw_obj < m)%nat →
  _parse_value_rec n raw_obj = _parse_value_rec m raw_obj.
Proof.
  revert m raw_obj. induction n as [|n IH]; intros [|m] raw_obj Hn Hm; try lia.
  cbn [_parse_value_rec].
  destruct (getitem raw_obj "prisma__value") as [value|e] eqn:Hvalue; [|done].
  destruct (getitem raw_obj "prisma__type") as [prisma_type|e]; [|done].
  cbn. destruct (eq_str prisma_type "array"); [|done].
  destruct (iterate value) as [entries|e] eqn:Hentries; [|done]. cbn.
  rewrite (for_each_ext (_parse_value_rec n) (_parse_value_rec m)); [done|].
  intros entry Hentry. apply depth_getitem in Hvalue.
  pose proof (depth_iterate _ _ _ Hentries Hentry). apply IH; lia.
Qed.

(** The recursion equation of [_parse_value], as the source reads. *)
Lemma _parse_value_eq (raw_obj : raw) :
  _parse_value raw_obj =
    (value ← getitem raw_obj "prisma__value";
     prisma_type ← getitem raw_obj "prisma__type";
     if eq_str prisma_type "array" then
       entries ← iterate value;
       parsed ← for_each _parse_value entries;
       Ok (RList parsed)
     else Ok value).
Proof.
  unfold _parse_value at 1. cbn [_parse_value_rec].
  destruct (getitem raw_obj "prisma__value") as [value|e] eqn:Hvalue; [|done].
  destruct (getitem raw_obj "prisma__type") as [prisma_type|e]; [|done].
  cbn. destruct (eq_str prisma_type "array"); [|done].
  destruct (iterate value) as [entries|e] eqn:Hentries; [|done]. cbn.
  rewrite (for_each_ext (_parse_value_rec (depth raw_obj)) _parse_value); [done|].
  intros entry Hentry. apply depth_getitem in Hvalue.
  pose proof (depth_iterate _ _ _ Hentries Hentry).
  apply _parse_value_rec_fuel; lia.
Qed.

Lemma getitem_Raise (obj : raw) key e :
  getitem obj key = Raise e → e ≠ RecursionError.
Proof.
  destruct obj as [| | | | | |d]; cbn; try by intros [= <-].
  destruct (dict_get d key); [done|]. by intros [= <-].
Qed.

Lemma iterate_Raise (value : raw) e : iterate value = Raise e → e ≠ RecursionError.
Proof. destruct value; cbn; try done; by intros [= <-]. Qed.

(** [_parse_value] has room for every nested call: it never raises
    [RecursionError]. *)
Lemma _parse_value_total (raw_obj : raw) :
  _parse_value raw_obj ≠ Raise RecursionError.
Proof.
  remember (depth raw_obj) as n eqn:Hn. revert raw_obj Hn.
  induction (lt_wf n) as [n _ IH]. intros raw_obj ->.
  rewrite _parse_value_eq.
  destruct (getitem raw_obj "prisma__value") as [value|e] eqn:Hvalue; cbn;
    [|intros [= ->]; by eapply getitem_Raise].
  destruct (getitem raw_obj "prisma__type") as [prisma_type|e] eqn:Htype; cbn;
    [|intros [= ->]; by eapply getitem_Raise].
  destruct (eq_str prisma_type "array"); [|done].
  destruct (iterate value) as [entries|e] eqn:Hentries; cbn;
    [|intros [= ->]; by eapply iterate_Raise].
  destruct (for_each _parse_value entries) as [parsed|e] eqn:Hparsed; [done|].
  cbn. intros [= ->].
  destruct (for_each_Raise_inv _ _ _ Hparsed) as (entry & Hentry & Hraise).
  apply depth_getitem in Hvalue.
  pose proof (depth_iterate _ _ _ Hentries Hentry).
  eapply (IH (depth entry)); [lia|reflexivity|exact Hraise].
Qed.

(** The table depends on its open entry only at the tag [array]. *)
Lemma convert_or_pass_ext (f g : deserializer) (prisma_type value : raw) for_model :
  f value for_model = g value for_model →
  convert_or_pass (DESERIALIZERS_with f) prisma_type value for_model =
  convert_or_pass (DESERIALIZERS_with g) prisma_type value for_model.
Proof.
  intros Hfg. destruct prisma_type as [| | | |s| |]; try done.
  unfold convert_or_pass, contains, DESERIALIZERS_with. cbn [dict_get mbind result_bind].
  repeat (match goal with |- context [String.eqb ?k s] => destruct (String.eqb k s) end;
          [done|]).
  done.
Qed.

Lemma _deserialize_array_rec_fuel n m (value : raw) for_model :
  (depth value < n)%nat → (depth value < m)%nat →
  _deserialize_array_rec n value for_model = _deserialize_array_rec m value for_model.
Proof.
  revert m value. induction n as [|n IH]; intros [|m] value Hn Hm; try lia.
  cbn [_deserialize_array_rec].
  destruct (iterate value) as [entries|e] eqn:Hentries; [|done]. cbn.
  match goal with |- mbind _ (for_each ?f _) = mbind _ (for_each ?g _) =>
    rewrite (for_each_ext f g); [done|] end.
  intros entry Hentry. pose proof (depth_iterate _ _ _ Hentries Hentry).
  destruct (getitem entry "prisma__type") as [prisma_type|e]; [|done].
  destruct (getitem entry "prisma__value") as [prisma_value|e] eqn:Hvalue; [|done].
  cbn. apply depth_getitem in Hvalue. apply convert_or_pass_ext, IH; lia.
Qed.

(** The equation of [_deserialize_array], with the table [DESERIALIZERS]. *)
Lemma _deserialize_array_eq (value : raw) for_model :
  _deserialize_array value for_model =
    (entries ← iterate value;
     arr ← for_each (deserialize_entry for_model) entries;
     Ok (OList arr)).
Proof.
  unfold _deserialize_array at 1. cbn [_deserialize_array_rec].
  destruct (iterate value) as [entries|e] eqn:Hentries; [|done]. cbn.
  match goal with |- context [for_each ?f entries] =>
    rewrite (for_each_ext f (deserialize_entry for_model)); [done|] end.
  intros entry Hentry. pose proof (depth_iterate _ _ _ Hentries Hentry).
  unfold deserialize_entry.
  destruct (getitem entry "prisma__type") as [prisma_type|e]; [|done].
  destruct (getitem entry "prisma__value") as [prisma_value|e] eqn:Hvalue; [|done].
  cbn. apply depth_getitem in Hvalue. unfold DESERIALIZERS.
  apply convert_or_pass_ext. unfold _deserialize_array.
  apply _deserialize_array_rec_fuel; lia.
Qed.

(** A run under a bound on the nested calls either is cut short by the bound
    or is the run of [_parse_value]. *)
Lemma _parse_value_rec_agrees (limit : nat) (raw_obj : raw) :
  _parse_value_rec limit raw_obj = Raise RecursionError ∨
  _parse_value_rec limit raw_obj = _parse_value raw_obj.
Proof.
  revert raw_obj. induction limit as [|limit IH]; intros raw_obj; [by left|].
  rewrite _parse_value_eq. cbn [_parse_value_rec].
  destruct (getitem raw_obj "prisma__value") as [value|e]; [|by right].
  destruct (getitem raw_obj "prisma__type") as [prisma_type|e]; [|by right].
  cbn [mbind result_bind]. destruct (eq_str prisma_type "array"); [|by right].
  destruct (iterate value) as [entries|e]; [|by right]. cbn [mbind result_bind].
  destruct (for_each_agrees_or (_parse_value_rec limit) _parse_value entries
              RecursionError) as [->| ->]; [intros entry _; apply IH|by left|by right].
Qed.

(** The same for [_deserialize_array]. *)
Lemma _deserialize_array_rec_agrees (limit : nat) (value : raw) for_model :
  _deserialize_array_rec limit value for_model = Raise RecursionError ∨
  _deserialize_array_rec limit value for_model = _deserialize_array value for_model.
Proof.
  revert value. induction limit as [|limit IH]; intros value; [by left|].
  rewrite _deserialize_array_eq. cbn [_deserialize_array_rec].
  destruct (iterate value) as [entries|e]; [|by right]. cbn [mbind result_bind].
  match goal with |- context [for_each ?f entries] =>
    destruct (for_each_agrees_or f (deserialize_entry for_model) entries
                RecursionError) as [->| ->]; [|by left|by right] end.
  intros entry _. unfold deserialize_entry.
  destruct (getitem entry "prisma__type") as [prisma_type|e]; [|by right].
  destruct (getitem entry "prisma__value") as [prisma_value|e]; [|by right].
  cbn [mbind result_bind].
  destruct (IH prisma_value) as [Hshort|Hsame].
  - destruct prisma_type as [| | | |s| |]; try by right.
    unfold convert_or_pass, contains, DESERIALIZERS, DESERIALIZERS_with.
    cbn [dict_get mbind result_bind].
    repeat (match goal with |- context [String.eqb ?k s] =>
              destruct (String.eqb k s) end; [by right|]).
    destruct (String.eqb "array" s); [|by right].
    rewrite Hshort. by left.
  - right. unfold DESERIALIZERS. by apply convert_or_pass_ext.
Qed.

End RecursionFacts.

Section DictFacts.
Context {A V : Type}.

Lemma for_fold_ext {S} (f g : S → A → result S) (l : list A) (s : S) :
  (∀ s x, f s x = g s x) → for_fold f l s = for_fold g l s.
Proof.
  intros Hfg. revert s. induction l as [|x l IH]; intros s; [done|].
  cbn [for_fold]. rewrite Hfg. destruct (g s x); [|done]. cbn. apply IH.
Qed.

Lemma dict_setitem_fresh (d : dict V) key v :
  key ∉ keys d → dict_setitem d key v = d ++ [(key, v)].
Proof.
  unfold keys. induction d as [|[k w] d IH]; intros Hkey; [done|].
  cbn in Hkey |- *. apply not_elem_of_cons in Hkey as [Hne Hkey].
  destruct (String.eqb_spec k key) as [->|_]; [done|]. by rewrite IH.
Qed.

(** Filling a dictionary key by key from items with distinct keys lists the
    items in their order. *)
Lemma for_fold_setitem (f : A → result V) (d : list (string * A)) (acc : dict V) :
  NoDup (keys acc ++ keys d) →
  for_fold (λ new_obj kv, v ← f kv.2; Ok (dict_setitem new_obj kv.1 v)) d acc =
    (vs ← for_each (λ kv, f kv.2) d; Ok (acc ++ zip (keys d) vs)).
Proof.
  revert acc. induction d as [|[k x] d IH]; intros acc Hnd.
  - cbn. by rewrite app_nil_r.
  - cbn [for_fold for_each fst snd]. destruct (f x) as [v|e]; [|done]. cbn.
    cbn in Hnd. apply NoDup_app in Hnd as (Hacc & Hdisj & Hd).
    apply NoDup_cons in Hd as [Hk Hd].
    rewrite dict_setitem_fresh.
    2:{ intros Hin. apply (Hdisj _ Hin). left. }
    rewrite IH.
    2:{ unfold keys in *. rewrite fmap_app. cbn. rewrite <- app_assoc.
        apply NoDup_app. split_and!; [done| |by apply NoDup_cons].
        intros y Hy. apply Hdisj, Hy. }
    destruct (for_each (λ kv, f kv.2) d); [|done]. cbn.
    by rewrite <- app_assoc.
Qed.

Lemma keys_zip (ks : list string) (vs : list V) :
  length vs = length ks → keys (zip ks vs) = ks.
Proof. intros Hlen. apply fst_zip. lia. Qed.

End DictFacts.

Section RowFacts.
Context {float : Type} `{L : PyLib float}.
Local Abbreviation raw := (raw float).
Local Abbreviation out := (out float).

(** The loop of [_deserialize_prisma_object] assigns [deserialize_field] of
    each item to its key. *)
Lemma _deserialize_prisma_object_eq {T} (d : dict raw) for_model
    (model : option (model_class float T)) :
  _deserialize_prisma_object (RDict d) for_model model =
    (new_obj ← for_fold (λ new_obj kv,
                           v ← deserialize_field for_model kv.2;
                           Ok (dict_setitem new_obj kv.1 v)) d [];
     match model with
     | Some model => Instance_ <$> model new_obj
     | None => Ok (Mapping new_obj)
     end).
Proof.
  unfold _deserialize_prisma_object. cbn [items mbind result_bind].
  f_equal. apply for_fold_ext. intros new_obj [key raw_value].
  unfold deserialize_field. cbn [fst snd].
  destruct (getitem raw_value "prisma__value"); [|done].
  destruct (getitem raw_value "prisma__type"); done.
Qed.

(** A row with distinct field names: the values are converted in order and
    paired with the names. *)
Lemma _deserialize_prisma_object_NoDup {T} (d : dict raw) for_model
    (model : option (model_class float T)) :
  NoDup (keys d) →
  _deserialize_prisma_object (RDict d) for_model model =
    (vs ← for_each (λ kv, deserialize_field for_model kv.2) d;
     match model with
     | Some model => Instance_ <$> model (zip (keys d) vs)
     | None => Ok (Mapping (zip (keys d) vs))
     end).
Proof.
  intros Hnd. rewrite _deserialize_prisma_object_eq, for_fold_setitem by done.
  destruct (for_each _ d); done.
Qed.

Lemma _parse_prisma_obj_NoDup (d : dict raw) :
  NoDup (keys d) →
  _parse_prisma_obj (RDict d) =
    (vs ← for_each (λ kv, _parse_value kv.2) d; Ok (zip (keys d) vs)).
Proof.
  intros Hnd. unfold _parse_prisma_obj. cbn [items mbind result_bind].
  rewrite (for_fold_setitem _parse_value) by done.
  destruct (for_each _ d); done.
Qed.

(** With room for every nested call, the raw-parse path accepts every
    well-tagged leaf. *)
Lemma _parse_value_well_tagged (leaf : raw) :
  well_tagged leaf → is_Ok (_parse_value leaf) = true.
Proof.
  induction 1 as [d prisma_type value Htype Hvalue Hne|d l Htype Hvalue _ IH];
    rewrite _parse_value_eq; unfold getitem; rewrite Hvalue, Htype; cbn.
  - by rewrite Hne.
  - assert (is_Ok (for_each _parse_value l) = true) as Hl.
    { apply for_each_all_Ok, Forall_forall. exact IH. }
    destruct (for_each _parse_value l); done.
Qed.

(** Under a bound on the nested calls, a well-tagged leaf fails only for
    want of room. *)
Lemma _parse_value_rec_well_tagged (limit : nat) (leaf : raw) e :
  well_tagged leaf → _parse_value_rec limit leaf = Raise e → e = RecursionError.
Proof.
  revert leaf e. induction limit as [|limit IH]; intros leaf e Hwell;
    cbn [_parse_value_rec]; [by intros [= <-]|].
  inversion Hwell as [d prisma_type value Htype Hvalue Hne|d l Htype Hvalue Hl];
    subst leaf; unfold getitem; rewrite Hvalue, Htype; cbn [mbind result_bind].
  - by rewrite Hne.
  - cbn [eq_str iterate mbind result_bind].
    change (String.eqb "array" "array") with true. cbv iota.
    destruct (for_each (_parse_value_rec limit) l) as [parsed|e'] eqn:Hparsed; [done|].
    cbn. intros [= ->].
    destruct (for_each_Raise_inv _ _ _ Hparsed) as (entry & Hentry & Hraise).
    eapply IH; [by apply Hl|exact Hraise].
Qed.

Lemma _parse_prisma_obj_within_NoDup (limit : nat) (d : dict raw) :
  NoDup (keys d) →
  _parse_prisma_obj_within limit (RDict d) =
    (vs ← for_each (λ kv, _parse_value_rec limit kv.2) d; Ok (zip (keys d) vs)).
Proof.
  intros Hnd. unfold _parse_prisma_obj_within. cbn [items mbind result_bind].
  rewrite (for_fold_setitem (_parse_value_rec limit)) by done.
  destruct (for_each _ d); done.
Qed.

(** With room for more nested calls than the value is deep, the bound is not
    felt. *)
Lemma _parse_value_rec_enough (limit : nat) (raw_obj : raw) :
  (depth raw_obj < limit)%nat → _parse_value_rec limit raw_obj = _parse_value raw_obj.
Proof. intros Hroom. apply _parse_value_rec_fuel; lia. Qed.

End RowFacts.

Section Claims.
Context {float : Type} `{L : PyLib float}.
Local Abbreviation raw := (raw float).
Local Abbreviation out := (out float).

Lemma eq_str_false (v : raw) s : v ≠ RStr s → eq_str v s = false.
Proof.
  destruct v as [| | | |t| |]; try done. cbn.
  destruct (String.eqb_spec t s) as [->|]; done.
Qed.

(** C7: the raw-parse path treats only the tag [array] specially.  For a
    tagged value with any other tag, [bigint] included, [_parse_value]
    returns the raw value verbatim; under [array] it unwraps each entry of
    the value recursively. *)
Theorem _parse_value_array_only (raw_obj value prisma_type : raw) :
  getitem raw_obj "prisma__value" = Ok value →
  getitem raw_obj "prisma__type" = Ok prisma_type →
  (prisma_type ≠ RStr "array" → _parse_value raw_obj = Ok value) ∧
  (prisma_type = RStr "array" →
   _parse_value raw_obj =
     (entries ← iterate value;
      parsed ← for_each _parse_value entries;
      Ok (RList parsed))).
Proof.
  intros Hvalue Htype. rewrite _parse_value_eq, Hvalue, Htype. cbn. split.
  - intros Hne. by rewrite eq_str_false.
  - by intros ->.
Qed.

Lemma convert_or_pass_absent (tag : string) (value : raw) for_model :
  dict_get DESERIALIZERS tag = None →
  convert_or_pass DESERIALIZERS (RStr tag) value for_model = Ok (ORaw value).
Proof.
  intros Habsent. unfold convert_or_pass. cbn [contains mbind result_bind].
  by rewrite Habsent.
Qed.

Lemma lookup_zip_keys {A V} (d : list (string * A)) (vs : list V) i key x v :
  d !! i = Some (key, x) → vs !! i = Some v →
  zip (keys d) vs !! i = Some (key, v).
Proof.
  intros Hd Hv. apply lookup_zip_with_Some. exists key, v. split_and!; [done| |done].
  unfold keys. by rewrite list_lookup_fmap, Hd.
Qed.

(** C9: a tag that is not a key of [DESERIALIZERS], whether or not it belongs
    to the enumeration of type tags, makes the full path return the raw value
    unchanged, in a row and inside an array: the leaf converts to its raw
    value, a row or array that is returned holds the raw value at the leaf's
    position, and the row or array is returned whenever its other leaves
    convert. *)
Theorem unmapped_tag_is_identity {T} (tag : string) (leaf value : raw) for_model :
  dict_get DESERIALIZERS tag = None →
  getitem leaf "prisma__type" = Ok (RStr tag) →
  getitem leaf "prisma__value" = Ok value →
  deserialize_field for_model leaf = Ok (ORaw value) ∧
  deserialize_entry for_model leaf = Ok (ORaw value) ∧
  (∀ (d : dict raw) i key,
     NoDup (keys d) → d !! i = Some (key, leaf) →
     (∀ new_obj,
        _deserialize_prisma_object (T:=T) (RDict d) for_model None
          = Ok (Mapping new_obj) →
        new_obj !! i = Some (key, ORaw value)) ∧
     ((∀ j kv, d !! j = Some kv → j ≠ i →
               is_Ok (deserialize_field for_model kv.2) = true) →
      is_Ok (_deserialize_prisma_object (T:=T) (RDict d) for_model None) = true)) ∧
  (∀ (l : list raw) i,
     l !! i = Some leaf →
     (∀ arr, _deserialize_array (RList l) for_model = Ok arr →
             ∃ items_, arr = OList items_ ∧ items_ !! i = Some (ORaw value)) ∧
     ((∀ j entry, l !! j = Some entry → j ≠ i →
                  is_Ok (deserialize_entry for_model entry) = true) →
      is_Ok (_deserialize_array (RList l) for_model) = true)).
Proof.
  intros Habsent Htype Hvalue.
  assert (deserialize_field for_model leaf = Ok (ORaw value)) as Hfield.
  { unfold deserialize_field. rewrite Hvalue, Htype. cbn.
    by apply convert_or_pass_absent. }
  assert (deserialize_entry for_model leaf = Ok (ORaw value)) as Hentry.
  { unfold deserialize_entry. rewrite Hvalue, Htype. cbn.
    by apply convert_or_pass_absent. }
  split_and!; [done|done| |].
  - intros d i key Hnd Hi. rewrite _deserialize_prisma_object_NoDup by done. split.
    + intros new_obj Hrow.
      destruct (for_each _ d) as [vs|e] eqn:Hvs; [|done].
      injection Hrow as <-.
      destruct (for_each_Ok_lookup _ _ _ _ _ Hvs Hi) as (v & Hv & Hlook).
      cbn in Hv. rewrite Hfield in Hv. injection Hv as <-.
      by eapply lookup_zip_keys.
    + intros Hothers.
      assert (is_Ok (for_each (λ kv, deserialize_field for_model kv.2) d) = true)
        as Hall.
      { apply for_each_all_Ok, Forall_lookup. intros j kv Hj.
        destruct (decide (j = i)) as [->|Hne]; [|by eapply Hothers].
        assert (kv = (key, leaf)) as -> by congruence. cbn. by rewrite Hfield. }
      destruct (for_each _ d); done.
  - intros l i Hi. rewrite _deserialize_array_eq. cbn [iterate mbind result_bind].
    split.
    + intros arr Harr.
      destruct (for_each _ l) as [vs|e] eqn:Hvs; [|done].
      injection Harr as <-. exists vs. split; [done|].
      destruct (for_each_Ok_lookup _ _ _ _ _ Hvs Hi) as (v & Hv & Hlook).
      rewrite Hentry in Hv. by injection Hv as <-.
    + intros Hothers.
      assert (is_Ok (for_each (deserialize_entry for_model) l) = true) as Hall.
      { apply for_each_all_Ok, Forall_lookup. intros j entry Hj.
        destruct (decide (j = i)) as [->|Hne]; [|by eapply Hothers].
        assert (entry = leaf) as -> by congruence. by rewrite Hentry. }
      destruct (for_each _ l); done.
Qed.

(** C10, as the code has it: for a row with distinct field names, a mapping
    returned by either path has exactly the row's field names, in the row's
    order, and so has the mapping handed to a model.  The full path returns a
    mapping exactly when every leaf of the row converts, the raw-parse path
    exactly when every leaf parses.  On a row of well-tagged leaves the
    raw-parse path, whatever the room for nested calls, returns a mapping with
    the row's field names or raises [RecursionError], and it returns when
    given room enough. *)
Theorem field_names_preserved {T} (d : dict raw) for_model :
  NoDup (keys d) →
  (∀ new_obj, _parse_prisma_obj (RDict d) = Ok new_obj → keys new_obj = keys d) ∧
  (∀ new_obj,
     _deserialize_prisma_object (T:=T) (RDict d) for_model None
       = Ok (Mapping new_obj) →
     keys new_obj = keys d) ∧
  (is_Ok (_parse_prisma_obj (RDict d)) = true ↔
   Forall (λ kv, is_Ok (_parse_value kv.2) = true) d) ∧
  (is_Ok (_deserialize_prisma_object (T:=T) (RDict d) for_model None) = true ↔
   Forall (λ kv, is_Ok (deserialize_field for_model kv.2) = true) d) ∧
  (Forall (λ kv, well_tagged kv.2) d →
   (∀ limit,
      (∃ new_obj,
         _parse_prisma_obj_within limit (RDict d) = Ok new_obj ∧
         keys new_obj = keys d)
      ∨ _parse_prisma_obj_within limit (RDict d) = Raise RecursionError) ∧
   (∃ enough, ∀ limit,
      (enough ≤ limit)%nat →
      is_Ok (_parse_prisma_obj_within limit (RDict d)) = true)) ∧
  (∀ (model : model_class float T) r,
     _deserialize_prisma_object (RDict d) for_model (Some model) = Ok r →
     ∃ new_obj m,
       keys new_obj = keys d ∧ model new_obj = Ok m ∧ r = Instance_ m).
Proof.
  intros Hnd.
  assert (∀ V (vs : list V), length vs = length d → keys (zip (keys d) vs) = keys d)
    as Hkeys.
  { intros V vs Hlen. apply keys_zip. unfold keys. by rewrite length_fmap. }
  rewrite _parse_prisma_obj_NoDup by done.
  split_and!; try rewrite _deserialize_prisma_object_NoDup by done;
    try (intros model r; rewrite _deserialize_prisma_object_NoDup by done).
  - intros new_obj Hrow. destruct (for_each _ d) as [vs|e] eqn:Hvs; [|done].
    injection Hrow as <-. by eapply Hkeys, for_each_Ok_length.
  - intros new_obj Hrow. destruct (for_each _ d) as [vs|e] eqn:Hvs; [|done].
    injection Hrow as <-. by eapply Hkeys, for_each_Ok_length.
  - split.
    + intros Hrow. apply for_each_Ok_Forall. by destruct (for_each _ d).
    + intros Hleaves. apply for_each_all_Ok in Hleaves. by destruct (for_each _ d).
  - split.
    + intros Hrow. apply for_each_Ok_Forall. by destruct (for_each _ d).
    + intros Hleaves. apply for_each_all_Ok in Hleaves. by destruct (for_each _ d).
  - intros Hwell. split; [intros limit|exists (depth (RDict d)); intros limit];
      rewrite _parse_prisma_obj_within_NoDup by done.
    + destruct (for_each _ d) as [vs|e] eqn:Hvs; cbn [mbind result_bind].
      * left. eexists. split; [done|]. by eapply Hkeys, for_each_Ok_length.
      * right. f_equal.
        destruct (for_each_Raise_inv _ _ _ Hvs) as (kv & Hkv & Hraise).
        rewrite Forall_forall in Hwell.
        by eapply _parse_value_rec_well_tagged; [apply Hwell|].
    + intros Hroom.
      assert (is_Ok (for_each (λ kv, _parse_value_rec limit kv.2) d) = true) as Hall.
      { apply for_each_all_Ok, Forall_forall. intros kv Hkv.
        rewrite Forall_forall in Hwell. pose proof (depth_field d kv Hkv).
        rewrite _parse_value_rec_enough by lia.
        by apply _parse_value_well_tagged, Hwell. }
      by destruct (for_each _ d).
  - destruct (for_each _ d) as [vs|e] eqn:Hvs; [|done]. cbn.
    destruct (model (zip (keys d) vs)) as [m|e] eqn:Hm; [|done].
    intros [= <-]. exists (zip (keys d) vs), m. split_and!; [|done|done].
    by eapply Hkeys, for_each_Ok_length.
Qed.

End Claims.

Section FoldFacts.
Context {A S : Type}.

Lemma for_fold_app (body : S → A → result S) l1 l2 s :
  for_fold body (l1 ++ l2) s = (s' ← for_fold body l1 s; for_fold body l2 s').
Proof.
  revert s. induction l1 as [|x l1 IH]; intros s; [done|].
  cbn [for_fold app]. destruct (body s x); [|done]. cbn. apply IH.
Qed.

Lemma for_fold_Raise (body : S → A → result S) l x :
  x ∈ l → (∀ s, ∃ e, body s x = Raise e) →
  ∀ s, ∃ e, for_fold body l s = Raise e.
Proof.
  intros Hx Hbody. induction Hx as [x l|x y l Hx IH]; intros s; cbn [for_fold].
  - destruct (Hbody s) as [e ->]. cbn. eauto.
  - destruct (body s y) as [s'|e]; cbn; [|eauto]. by apply IH.
Qed.

Lemma for_fold_all_Ok (body : S → A → result S) l :
  Forall (λ x, ∀ s, is_Ok (body s x) = true) l →
  ∀ s, ∃ s', for_fold body l s = Ok s'.
Proof.
  induction 1 as [|x l Hx _ IH]; intros s; cbn [for_fold]; [eauto|].
  specialize (Hx s). destruct (body s x) as [s'|e]; [|done]. cbn. apply IH.
Qed.

End FoldFacts.

Section ConverterClaims.
Context {float : Type} `{L : PyLib float}.
Local Abbreviation raw := (raw float).
Local Abbreviation out := (out float).

Lemma convert_or_pass_array (value : raw) for_model :
  convert_or_pass DESERIALIZERS (RStr "array") value for_model =
  _deserialize_array value for_model.
Proof. reflexivity. Qed.

Lemma malformed_raises (leaf : raw) for_model :
  malformed leaf →
  (∃ e, deserialize_field for_model leaf = Raise e) ∧
  (∃ e, deserialize_entry for_model leaf = Raise e).
Proof.
  induction 1 as [d [Hvalue|Htype]|d l entry Htype Hvalue Hin _ [_ [e IH]]];
    unfold deserialize_field, deserialize_entry, getitem.
  - rewrite Hvalue. split; [cbn; eauto|].
    destruct (dict_get d "prisma__type"); cbn; eauto.
  - rewrite Htype. split; [|cbn; eauto].
    destruct (dict_get d "prisma__value"); cbn; eauto.
  - rewrite Hvalue, Htype. cbn [mbind result_bind].
    rewrite convert_or_pass_array, _deserialize_array_eq. cbn [iterate mbind result_bind].
    destruct (for_each_Raise _ _ _ _ Hin IH) as [e' ->]. cbn. eauto.
Qed.

Lemma missing_subfield_raises (dl : dict raw) for_model :
  dict_get dl "prisma__value" = None ∨ dict_get dl "prisma__type" = None →
  deserialize_field for_model (RDict dl) = Raise (KeyError (missing_subfield dl)).
Proof.
  unfold deserialize_field, missing_subfield, getitem.
  intros [Hvalue|Htype].
  - by rewrite Hvalue.
  - rewrite Htype. by destruct (dict_get dl "prisma__value").
Qed.

(** C2, as the code has it: a row with a leaf that lacks [prisma__type] or
    [prisma__value], at the top level or inside an array, is never returned,
    not even in part: [_deserialize_prisma_object] raises, and so does
    [deserialize_raw_results] on any list holding the row.  When the leaf is a
    field of the row and every field before it converts, the exception is the
    [KeyError] of the missing sub-field. *)
Theorem malformed_leaf_fails_row {T} (d : dict raw) i key leaf :
  d !! i = Some (key, leaf) →
  malformed leaf →
  (∀ for_model (model : option (model_class float T)),
     ∃ e, _deserialize_prisma_object (RDict d) for_model model = Raise e) ∧
  (∀ rows (model : option (model_class float T)),
     RDict d ∈ rows → ∃ e, deserialize_raw_results rows model = Raise e) ∧
  (∀ dl for_model (model : option (model_class float T)),
     leaf = RDict dl →
     dict_get dl "prisma__value" = None ∨ dict_get dl "prisma__type" = None →
     Forall (λ kv, is_Ok (deserialize_field for_model kv.2) = true) (take i d) →
     _deserialize_prisma_object (RDict d) for_model model
       = Raise (KeyError (missing_subfield dl))).
Proof.
  intros Hi Hbad.
  assert (∀ for_model (model : option (model_class float T)),
            ∃ e, _deserialize_prisma_object (RDict d) for_model model = Raise e)
    as Hrow.
  { intros for_model model. rewrite _deserialize_prisma_object_eq.
    destruct (for_fold_Raise
                (λ new_obj kv, v ← deserialize_field for_model kv.2;
                               Ok (dict_setitem new_obj kv.1 v))
                d (key, leaf)) with (s := @nil (string * out)) as [e He].
    - eapply list_elem_of_lookup_2, Hi.
    - intros s. cbn [fst snd].
      destruct (proj1 (malformed_raises leaf for_model Hbad)) as [e ->]. cbn. eauto.
    - rewrite He. cbn. eauto. }
  split_and!; [done| |].
  - intros rows model Hin. destruct model as [m|]; cbn [deserialize_raw_results].
    + destruct (Hrow true (Some m)) as [e He]. eapply for_each_Raise; [exact Hin|exact He].
    + destruct (Hrow false None) as [e He]. eapply for_each_Raise; [exact Hin|exact He].
  - intros dl for_model model -> Hlacks Hbefore.
    rewrite _deserialize_prisma_object_eq.
    rewrite <- (take_drop_middle d i _ Hi), for_fold_app.
    destruct (for_fold_all_Ok
                (λ new_obj kv, v ← deserialize_field for_model kv.2;
                               Ok (dict_setitem new_obj kv.1 v))
                (take i d)) with (s := @nil (string * out)) as [s' ->].
    { eapply Forall_impl; [exact Hbefore|]. intros kv Hkv s. cbv beta in Hkv.
      destruct (deserialize_field for_model kv.2); cbn in *; done. }
    cbn [mbind result_bind for_fold fst snd].
    by rewrite missing_subfield_raises.
Qed.

(** C3: the converter of the tag [json].  Called from the entry point with a
    model ([for_model] true) on a value that is not a string, it returns the
    value encoded by [json.dumps]; called from the entry point without a model
    it returns the value as it is, whatever its form.  The entry points pass
    the flag accordingly. *)
Theorem _deserialize_json_by_entry_point {T} (value : raw) :
  (isinstance_str value = false →
   _deserialize_json value true = Ok (OStr (json_dumps value))) ∧
  _deserialize_json value false = Ok (ORaw value) ∧
  (∀ key,
     deserialize_raw_results (T:=T) [RDict [(key, tagged "json" value)]] None
       = Ok [Mapping [(key, ORaw value)]]) ∧
  (∀ key (model : model_class float T),
     isinstance_str value = false →
     deserialize_raw_results [RDict [(key, tagged "json" value)]] (Some model)
       = (m ← model [(key, OStr (json_dumps value))]; Ok [Instance_ m])).
Proof.
  assert (∀ for_model,
            deserialize_field for_model (tagged "json" value)
              = _deserialize_json value for_model) as Hfield by reflexivity.
  split_and!.
  - intros Hstr. unfold _deserialize_json. by rewrite Hstr.
  - unfold _deserialize_json. by rewrite andb_false_r.
  - intros key. cbn [deserialize_raw_results for_each].
    rewrite _deserialize_prisma_object_eq. cbn [for_fold fst snd].
    rewrite Hfield. unfold _deserialize_json. by rewrite andb_false_r.
  - intros key model Hstr. cbn [deserialize_raw_results for_each].
    rewrite _deserialize_prisma_object_eq. cbn [for_fold fst snd].
    rewrite Hfield. unfold _deserialize_json. rewrite Hstr. cbn.
    destruct (model _); done.
Qed.

(** The text handed to [fromisoformat] by the converter of the tag [time]: a
    dollar sign stands between the date and the value. *)
Lemma _deserialize_time_text (v : string) for_model :
  _deserialize_time (RStr v) for_model =
    ODatetime <$> fromisoformat (RStr ("1970-01-01T$" +:+ v +:+ "Z")).
Proof. reflexivity. Qed.


End ConverterClaims.

(** * The converters on the reference library *)

Section ReferenceRuns.
Local Abbreviation raw := (raw Empty_set).
Local Abbreviation out := (out Empty_set).
Local Existing Instance cpython.

(** The time text of the source never parses: after the separator [T] the
    reference parser meets the dollar sign where the hour must start. *)
Lemma fromisoformat_dollar (rest : string) :
  CPython.fromisoformat_string ("1970-01-01T$" +:+ rest) = Raise ValueError.
Proof.
  unfold CPython.fromisoformat_string.
  change (list_ascii_of_string ("1970-01-01T$" +:+ rest))
    with (list_ascii_of_string "1970-01-01T" ++ "$"%char :: list_ascii_of_string rest).
  cbn -[CPython.split_tz CPython.parse_hh_mm_ss_ff CPython.parse_tz].
  change (CPython.split_tz ("$"%char :: ?l))
    with (let '(t, z) := CPython.split_tz l in ("$"%char :: t, z)).
  destruct (CPython.split_tz (list_ascii_of_string rest)) as [t z].
  destruct t as [|h2 t]; reflexivity.
Qed.

(** C1, where the code departs from it: on the time value [12:30:00] the
    converter hands [1970-01-01T$12:30:00Z] to [fromisoformat] and raises,
    while the text made of the epoch date, the value and [Z] parses to
    12:30:00 UTC on the epoch date; the converter raises on every value. *)
Theorem _deserialize_time_dollar_sign :
  time_fstring (RStr "12:30:00") = "1970-01-01T$12:30:00Z" ∧
  _deserialize_time (RStr "12:30:00") false = Raise ValueError ∧
  fromisoformat (RStr "1970-01-01T12:30:00Z")
    = Ok {| year := 1970; month := 1; day := 1;
            hour := 12; minute := 30; second := 0; microsecond := 0;
            tzinfo := Some 0%Z |} ∧
  (∀ (value : raw) for_model, _deserialize_time value for_model = Raise ValueError).
Proof.
  split_and!; [reflexivity|reflexivity|reflexivity|].
  intros value for_model. unfold _deserialize_time, time_fstring.
  cbn [fromisoformat cpython CPython.fromisoformat].
  change ("1970-01-01T$" +:+ format_ value +:+ "Z")
    with ("1970-01-01T$" +:+ (format_ value +:+ "Z")).
  by rewrite fromisoformat_dollar.
Qed.

(** C2 fails as stated: the row has a leaf without [prisma__value], and the
    full path fails with the [ValueError] of the field before it, not with
    the [KeyError] of the missing sub-field. *)
Lemma malformed_row_raises_ValueError :
  malformed (float:=Empty_set) (RDict [("prisma__type", RStr "int")]) ∧
  _deserialize_prisma_object (T:=()) row_bad_bigint_then_malformed false None
    = Raise ValueError ∧
  deserialize_raw_results (T:=()) [row_bad_bigint_then_malformed] None
    = Raise ValueError.
Proof.
  split_and!; [|reflexivity|reflexivity].
  apply malformed_leaf. by left.
Qed.

(** C10 fails as stated: every leaf of the row has its two sub-fields, and
    the full path returns no mapping for it: [int] rejects the text of the
    first leaf and its [ValueError] ends the call. *)
Lemma well_formed_row_raises_ValueError :
  NoDup (keys row_unparsable_bigint) ∧
  Forall (λ kv, well_tagged kv.2) row_unparsable_bigint ∧
  _deserialize_prisma_object (T:=()) (RDict row_unparsable_bigint) false None
    = Raise ValueError ∧
  deserialize_raw_results (T:=()) [RDict row_unparsable_bigint] None
    = Raise ValueError.
Proof.
  split_and!; [|repeat constructor|reflexivity|reflexivity].
  - apply (bool_decide_unpack (NoDup _)). vm_compute. exact I.
  - by eapply (well_tagged_scalar _ (RStr "bigint")).
  - by eapply (well_tagged_scalar _ (RStr "string")).
Qed.

End ReferenceRuns.

(** * The theorems at concrete rows *)

Lemma _parse_value_array_only_witness :
  _parse_value leaf_bigint = Ok (RStr "12345678901234567890") ∧
  _parse_value leaf_array = Ok (RList [RStr "1"; RList [RInt 2]]).
Proof.
  split.
  - apply (proj1 (_parse_value_array_only leaf_bigint _ (RStr "bigint")
                    eq_refl eq_refl)).
    discriminate.
  - rewrite (proj2 (_parse_value_array_only leaf_array _ (RStr "array")
                      eq_refl eq_refl) eq_refl).
    reflexivity.
Defined.

Lemma unmapped_tag_is_identity_witness :
  dict_get (DESERIALIZERS (L:=cpython)) "geometry" = None ∧
  deserialize_field (L:=cpython) false (tagged "geometry" (RStr "POINT(1 2)"))
    = Ok (ORaw (RStr "POINT(1 2)")) ∧
  is_Ok (_deserialize_prisma_object (L:=cpython) (T:=()) (RDict row_unmapped) false None)
    = true.
Proof.
  pose proof (unmapped_tag_is_identity (L:=cpython) (T:=()) "geometry"
                (tagged "geometry" (RStr "POINT(1 2)")) (RStr "POINT(1 2)") false
                eq_refl eq_refl eq_refl) as (Hfield & _ & Hrow & _).
  split_and!; [reflexivity|exact Hfield|].
  apply (Hrow row_unmapped 1%nat "kind").
  - apply (bool_decide_unpack (NoDup _)). vm_compute. exact I.
  - reflexivity.
  - intros [|[|j]] kv Hj Hne; [|done|done].
    injection Hj as <-. reflexivity.
Defined.

Lemma field_names_preserved_witness :
  NoDup (keys row_two_fields) ∧
  (∀ new_obj,
     _deserialize_prisma_object (L:=cpython) (T:=()) (RDict row_two_fields) false None
       = Ok (Mapping new_obj) →
     keys new_obj = ["id"; "name"]) ∧
  is_Ok (_deserialize_prisma_object (L:=cpython) (T:=()) (RDict row_two_fields) false None)
    = true ∧
  is_Ok (_parse_prisma_obj (RDict row_two_fields)) = true.
Proof.
  assert (NoDup (keys row_two_fields)) as Hnd.
  { apply (bool_decide_unpack (NoDup _)). vm_compute. exact I. }
  pose proof (field_names_preserved (L:=cpython) (T:=()) row_two_fields false Hnd)
    as (_ & Hnames & Hraw & Hfull & _).
  split_and!; [exact Hnd|exact Hnames| |].
  - apply Hfull. repeat constructor.
  - apply Hraw. repeat constructor.
Defined.

Lemma malformed_leaf_fails_row_witness :
  row_missing_value !! 1%nat = Some ("name", RDict [("prisma__type", RStr "string")]) ∧
  malformed (float:=Empty_set) (RDict [("prisma__type", RStr "string")]) ∧
  _deserialize_prisma_object (L:=cpython) (T:=()) (RDict row_missing_value) false None
    = Raise (KeyError "prisma__value").
Proof.
  assert (malformed (float:=Empty_set) (RDict [("prisma__type", RStr "string")]))
    as Hbad by (apply malformed_leaf; by left).
  split_and!; [reflexivity|exact Hbad|].
  apply (proj2 (proj2 (malformed_leaf_fails_row (L:=cpython) (T:=()) row_missing_value
                         1%nat "name" _ eq_refl Hbad))
           [("prisma__type", RStr "string")] false None eq_refl).
  - by left.
  - repeat constructor.
Defined.

Lemma _deserialize_json_by_entry_point_witness :
  isinstance_str (float:=Empty_set) (RList [RInt 1; RStr "a"]) = false ∧
  _deserialize_json (L:=cpython) (RList [RInt 1; RStr "a"]) true
    = Ok (OStr (String.concat "" ["[1, "; String CPython.dquote "a";
                                  String CPython.dquote "]"])) ∧
  _deserialize_json (L:=cpython) (RList [RInt 1; RStr "a"]) false
    = Ok (ORaw (RList [RInt 1; RStr "a"])).
Proof.
  pose proof (_deserialize_json_by_entry_point (L:=cpython) (T:=())
                (RList [RInt 1; RStr "a"])) as (Hmodel & Hplain & _).
  split_and!; [reflexivity|exact (Hmodel eq_refl)|exact Hplain].
Defined.


(** * Decimal literals on the reference library *)

Section DecimalFacts.
Local Open Scope Z_scope.

Lemma is_digit_code c : CPython.is_digit c = true → 48 <= CPython.code c <= 57.
Proof. unfold CPython.is_digit. lia. Qed.

Lemma is_digit_not_space c : CPython.is_digit c = true → CPython.is_space c = false.
Proof. intros Hc%is_digit_code. unfold CPython.is_space. cbv zeta. lia. Qed.

Lemma is_digit_not c k :
  CPython.is_digit k = false → CPython.is_digit c = true → Ascii.eqb c k = false.
Proof.
  intros Hk Hc. destruct (Ascii.eqb_spec c k) as [->|]; [congruence|done].
Qed.

Lemma lstrip_id l :
  Forall (λ c, CPython.is_space c = false) l → CPython.lstrip l = l.
Proof. destruct 1 as [|c l Hc _]; [done|]. cbn. by rewrite Hc. Qed.

Lemma strip_id l :
  Forall (λ c, CPython.is_space c = false) l → CPython.strip l = l.
Proof.
  intros Hl. unfold CPython.strip. rewrite (lstrip_id l Hl).
  rewrite lstrip_id by by apply Forall_reverse. apply reverse_involutive.
Qed.

Lemma filter_underscore_id (l : list ascii) :
  Forall (λ c, c ≠ "_"%char) l → filter (λ c, c ≠ "_"%char) l = l.
Proof.
  induction 1 as [|c l Hc _ IH]; [done|].
  rewrite filter_cons_True by done. by rewrite IH.
Qed.

Lemma all_digits_Forall ds :
  CPython.all_digits ds = true ↔ Forall (λ c, CPython.is_digit c = true) ds.
Proof.
  unfold CPython.all_digits. rewrite forallb_forall, Forall_forall.
  split; intros H c Hc; apply H; by apply list_elem_of_In.
Qed.

Lemma span_digits_all ds :
  CPython.all_digits ds = true → CPython.span_digits ds = (ds, []).
Proof.
  intros Hds%all_digits_Forall. induction Hds as [|c ds Hc _ IH]; [done|].
  cbn. by rewrite Hc, IH.
Qed.

Lemma span_digits_point ds rest :
  CPython.all_digits ds = true →
  CPython.span_digits (ds ++ "."%char :: rest) = (ds, "."%char :: rest).
Proof.
  intros Hds%all_digits_Forall. induction Hds as [|c ds Hc _ IH]; [done|].
  cbn [app CPython.span_digits]. by rewrite Hc, IH.
Qed.

Lemma lstrip_zeros_split ds :
  ds = replicate (leading_zeros ds) "0"%char ++ CPython.lstrip_zeros ds.
Proof.
  unfold leading_zeros. induction ds as [|c ds IH]; [done|].
  cbn [CPython.lstrip_zeros]. destruct (Ascii.eqb_spec c "0") as [->|Hc].
  - assert (length (CPython.lstrip_zeros ds) ≤ length ds)%nat as Hle.
    { rewrite IH at 2. rewrite length_app. lia. }
    cbn [length]. rewrite Nat.sub_succ_l by done. cbn. by rewrite <- IH.
  - by rewrite Nat.sub_diag.
Qed.

Lemma lstrip_zeros_nonzero c ds :
  c ≠ "0"%char → CPython.lstrip_zeros (c :: ds) = c :: ds.
Proof. intros Hc. cbn. by destruct (Ascii.eqb_spec c "0"). Qed.

Lemma string_of_list_ascii_app l1 l2 :
  string_of_list_ascii (l1 ++ l2) =
  string_of_list_ascii l1 +:+ string_of_list_ascii l2.
Proof. induction l1 as [|c l1 IH]; [done|]. cbn. by rewrite IH. Qed.

Lemma string_app_empty (s : string) : s +:+ "" = s.
Proof.
  induction s as [|c s IH]; [done|].
  change (String c (s +:+ "") = String c s). by rewrite IH.
Qed.

End DecimalFacts.

Section DecimalRoundTrip.
Local Open Scope Z_scope.

Lemma parse_finite_plain sign ip fp :
  CPython.all_digits ip = true → CPython.all_digits fp = true → ip ≠ [] →
  CPython.parse_finite sign
    (ip ++ match fp with [] => [] | _ => "."%char :: fp end)
  = Some (DFinite sign (string_of_list_ascii (CPython.normal_digits (ip ++ fp)))
                  (- Z.of_nat (length fp))).
Proof.
  intros Hip Hfp Hne. unfold CPython.parse_finite. destruct fp as [|f fp].
  - rewrite app_nil_r, span_digits_all by done. rewrite app_nil_r.
    destruct ip as [|c ip]; [done|]. reflexivity.
  - rewrite span_digits_point, span_digits_all by done.
    destruct ip as [|c ip]; [done|]. reflexivity.
Qed.

Lemma plain_chars_ok (neg : bool) ip fp :
  CPython.all_digits ip = true → CPython.all_digits fp = true →
  Forall (λ c : ascii, CPython.is_space c = false ∧ c ≠ "_"%char)
    ((if neg then ["-"%char] else [])
       ++ ip ++ match fp with [] => [] | _ => "."%char :: fp end).
Proof.
  intros Hip%all_digits_Forall Hfp%all_digits_Forall.
  assert (∀ ds, Forall (λ c, CPython.is_digit c = true) ds →
                Forall (λ c : ascii, CPython.is_space c = false ∧ c ≠ "_"%char) ds) as Hds.
  { intros ds Hds. eapply Forall_impl; [exact Hds|].
    intros c Hc. split; [by apply is_digit_not_space|]. by intros ->. }
  apply Forall_app. split; [destruct neg; repeat constructor; done|].
  apply Forall_app. split; [by apply Hds|].
  destruct fp as [|f fp]; [constructor|].
  constructor; [done|]. by apply Hds.
Qed.

Lemma Decimal_of_string_plain neg ip fp :
  CPython.all_digits ip = true → CPython.all_digits fp = true → ip ≠ [] →
  CPython.Decimal_of_string (plain_literal neg ip fp)
  = Ok (DFinite neg (string_of_list_ascii (CPython.normal_digits (ip ++ fp)))
                (- Z.of_nat (length fp))).
Proof.
  intros Hip Hfp Hne. unfold CPython.Decimal_of_string, plain_literal.
  rewrite list_ascii_of_string_of_list_ascii.
  pose proof (plain_chars_ok neg ip fp Hip Hfp) as Hchars.
  rewrite strip_id by (eapply Forall_impl; [exact Hchars|]; by intros c [? ?]).
  rewrite filter_underscore_id by (eapply Forall_impl; [exact Hchars|]; by intros c [? ?]).
  assert (CPython.split_sign
            ((if neg then ["-"%char] else [])
               ++ ip ++ match fp with [] => [] | _ => "."%char :: fp end)
          = (neg, ip ++ match fp with [] => [] | _ => "."%char :: fp end)) as ->.
  { destruct neg; [reflexivity|]. destruct ip as [|c ip]; [done|].
    apply all_digits_Forall, Forall_cons in Hip as [Hc _].
    cbn [app CPython.split_sign].
    by rewrite (is_digit_not c "-" eq_refl Hc), (is_digit_not c "+" eq_refl Hc). }
  by rewrite parse_finite_plain.
Qed.

End DecimalRoundTrip.

Section DecimalStr.
Local Open Scope Z_scope.

(** [str] of a finite decimal that needs no exponent. *)
Lemma Decimal_str_no_exponent sign nd e :
  e <= 0 → -6 < e + Z.of_nat (length nd) →
  CPython.Decimal_str (DFinite sign (string_of_list_ascii nd) e) =
    CPython.sign_text sign +:+
    string_of_list_ascii
      (if e + Z.of_nat (length nd) <=? 0 then
         "0"%char :: "."%char :: CPython.zeros (- (e + Z.of_nat (length nd))) ++ nd
       else if Z.of_nat (length nd) <=? e + Z.of_nat (length nd) then
         nd ++ CPython.zeros (e + Z.of_nat (length nd) - Z.of_nat (length nd))
       else
         take (Z.to_nat (e + Z.of_nat (length nd))) nd
           ++ "."%char :: drop (Z.to_nat (e + Z.of_nat (length nd))) nd).
Proof.
  intros He Hleft. unfold CPython.Decimal_str.
  rewrite list_ascii_of_string_of_list_ascii. cbv zeta.
  assert ((e <=? 0) && (-6 <? e + Z.of_nat (length nd)) = true) as -> by lia.
  rewrite Z.eqb_refl.
  destruct (e + Z.of_nat (length nd) <=? 0);
    [|destruct (Z.of_nat (length nd) <=? e + Z.of_nat (length nd))];
    cbv iota beta; rewrite string_app_empty; [done| |done].
  by rewrite app_nil_r.
Qed.

Ltac leb_lia :=
  first [ apply Z.leb_le | apply Z.leb_gt ]; cbn [length] in *; lia.

Lemma replicate_zeros_snoc (k : nat) :
  replicate (S k) "0"%char = replicate k "0"%char ++ ["0"%char].
Proof. induction k as [|k IH]; [done|]. cbn. f_equal. exact IH. Qed.

Lemma Decimal_str_plain neg ip fp :
  ip ≠ [] →
  ip = ["0"%char] ∨ head ip ≠ Some "0"%char →
  (ip = ["0"%char] → (leading_zeros fp < 6)%nat ∨ (length fp ≤ 6)%nat) →
  CPython.Decimal_str
    (DFinite neg (string_of_list_ascii (CPython.normal_digits (ip ++ fp)))
             (- Z.of_nat (length fp)))
  = plain_literal neg ip fp.
Proof.
  intros Hne Hcanon Hsmall. unfold plain_literal.
  rewrite (string_of_list_ascii_app (if neg then _ else _)).
  assert (string_of_list_ascii (if neg then ["-"%char] else [])
          = CPython.sign_text neg) as -> by by destruct neg.
  destruct Hcanon as [->|Hhead].
  - (* the integer part is 0 *)
    specialize (Hsmall eq_refl). pose proof (lstrip_zeros_split fp) as Hsplit.
    unfold CPython.normal_digits. cbn [app CPython.lstrip_zeros].
    change (Ascii.eqb "0" "0") with true. cbv iota.
    destruct (CPython.lstrip_zeros fp) as [|r rest] eqn:Hrest.
    + rewrite app_nil_r in Hsplit.
      assert (leading_zeros fp = length fp) as Hk.
      { unfold leading_zeros. rewrite Hrest. cbn. lia. }
      rewrite Hk in Hsplit, Hsmall.
      rewrite Decimal_str_no_exponent by (cbn [length]; lia).
      do 2 f_equal. cbn [length]. destruct fp as [|f fp]; [reflexivity|].
      cbn [length] in *.
      assert ((- Z.of_nat (S (length fp)) + Z.of_nat 1 <=? 0) = true) as -> by leb_lia.
      replace (- (- Z.of_nat (S (length fp)) + Z.of_nat 1))
        with (Z.of_nat (length fp)) by lia.
      unfold CPython.zeros. rewrite Nat2Z.id, <- replicate_zeros_snoc.
      cbn [app]. by rewrite <- Hsplit.
    + assert (length fp = (leading_zeros fp + length (r :: rest))%nat) as Hlen.
      { rewrite Hsplit at 1. by rewrite length_app, length_replicate. }
      assert (leading_zeros fp < 6)%nat as Hk by (cbn [length] in Hlen; lia).
      rewrite Decimal_str_no_exponent by lia.
      do 2 f_equal.
      assert ((- Z.of_nat (length fp) + Z.of_nat (length (r :: rest)) <=? 0) = true)
        as -> by leb_lia.
      replace (- (- Z.of_nat (length fp) + Z.of_nat (length (r :: rest))))
        with (Z.of_nat (leading_zeros fp)) by lia.
      unfold CPython.zeros. rewrite Nat2Z.id, <- Hsplit.
      destruct fp; [done|reflexivity].
  - (* the integer part starts with a digit other than 0 *)
    destruct ip as [|c ip]; [done|].
    assert (c ≠ "0"%char) as Hc by (intros ->; by apply Hhead).
    unfold CPython.normal_digits. cbn [app].
    rewrite lstrip_zeros_nonzero by done.
    rewrite Decimal_str_no_exponent by (cbn [length]; rewrite ?length_app; lia).
    do 2 f_equal.
    change (c :: ip ++ fp) with ((c :: ip) ++ fp).
    rewrite length_app.
    replace (- Z.of_nat (length fp) + Z.of_nat (length (c :: ip) + length fp))
      with (Z.of_nat (length (c :: ip))) by lia.
    assert ((Z.of_nat (length (c :: ip)) <=? 0) = false) as -> by leb_lia.
    destruct fp as [|f fp].
    + cbn [length]. rewrite Nat.add_0_r.
      rewrite Z.leb_refl, Z.sub_diag. by rewrite !app_nil_r.
    + assert ((Z.of_nat (length (c :: ip) + length (f :: fp))
                 <=? Z.of_nat (length (c :: ip))) = false) as -> by leb_lia.
      rewrite Nat2Z.id. by rewrite take_app_length, drop_app_length.
Qed.

End DecimalStr.

(** C8 fails as stated: the decimal literal [0.0000001] converts to the
    decimal with coefficient 1 and exponent -7, which [str] writes [1E-7]. *)
Lemma small_decimal_printed_with_exponent :
  _deserialize_decimal (L:=cpython) (RStr "0.0000001") false
    = Ok (ODecimal (DFinite false "1" (-7))) ∧
  CPython.Decimal_str (DFinite false "1" (-7)) = "1E-7" ∧
  CPython.Decimal_str (DFinite false "1" (-7)) ≠ "0.0000001".
Proof. split_and!; [reflexivity|reflexivity|discriminate]. Qed.

(** C8, as the code has it: a decimal literal in plain notation, that is an
    optional minus sign, integer digits without a redundant leading zero, and
    optionally a point followed by fraction digits, converts to a decimal
    that [str] writes back as the same text, provided that when the integer
    part is 0 the fraction has fewer than six leading zeros or at most six
    digits; [10.005] is such a literal.  No binary floating point is
    involved. *)
Theorem decimal_plain_text_round_trip (negative : bool) (intpart fracpart : list ascii)
    for_model :
  CPython.all_digits intpart = true →
  CPython.all_digits fracpart = true →
  intpart ≠ [] →
  intpart = ["0"%char] ∨ head intpart ≠ Some "0"%char →
  (intpart = ["0"%char] →
   (leading_zeros fracpart < 6)%nat ∨ (length fracpart ≤ 6)%nat) →
  ∃ d,
    _deserialize_decimal (L:=cpython)
      (RStr (plain_literal negative intpart fracpart)) for_model
      = Ok (ODecimal d) ∧
    CPython.Decimal_str d = plain_literal negative intpart fracpart.
Proof.
  intros Hip Hfp Hne Hcanon Hsmall.
  exists (DFinite negative
            (string_of_list_ascii (CPython.normal_digits (intpart ++ fracpart)))
            (- Z.of_nat (length fracpart))).
  split.
  - unfold _deserialize_decimal. cbn [Decimal cpython CPython.Decimal].
    by rewrite Decimal_of_string_plain.
  - by apply Decimal_str_plain.
Qed.

Lemma decimal_plain_text_round_trip_witness :
  plain_literal false (list_ascii_of_string "10") (list_ascii_of_string "005")
    = "10.005" ∧
  ∃ d,
    _deserialize_decimal (L:=cpython) (RStr "10.005") false = Ok (ODecimal d) ∧
    CPython.Decimal_str d = "10.005".
Proof.
  split; [reflexivity|].
  apply (decimal_plain_text_round_trip false (list_ascii_of_string "10")
           (list_ascii_of_string "005") false);
    [reflexivity|reflexivity|discriminate|right; discriminate|discriminate].
Defined.

(** * Properties of the engine binary cache *)

Module BinariesFacts.
Import Binaries.

Lemma environ_get_truthy_iff (environ : gmap string string) (name : string) :
  environ_get_truthy environ name = true ↔
  ∃ v, environ !! name = Some v ∧ v ≠ "".
Proof.
  unfold environ_get_truthy. destruct (environ !! name) as [v|].
  - destruct (String.eqb_spec v "") as [->|Hv]; cbn.
    + split; [done|]. by intros (? & [= <-] & ?).
    + split; [eauto|done].
  - split; [done|]. by intros (? & ? & ?).
Qed.

(** The variable of an engine is set to a non-empty value. *)
Lemma uses_custom_binaries_iff (environ : gmap string string) :
  uses_custom_binaries environ = true ↔
  Forall (λ engine, ∃ v, environ !! env engine = Some v ∧ v ≠ "") ENGINES.
Proof.
  unfold ENGINES. rewrite !Forall_cons, Forall_nil. cbn [env].
  rewrite <- !environ_get_truthy_iff. unfold uses_custom_binaries.
  destruct (environ_get_truthy environ "PRISMA_QUERY_ENGINE_BINARY"),
    (environ_get_truthy environ "PRISMA_MIGRATION_ENGINE_BINARY"),
    (environ_get_truthy environ "PRISMA_INTROSPECTION_ENGINE_BINARY"),
    (environ_get_truthy environ "PRISMA_FMT_BINARY"); cbn; intuition congruence.
Qed.

(** C5: [uses_custom_binaries] is true exactly when the environment variable
    of each of the four engines holds a non-empty value; setting or removing
    the variable of the CLI tool does not change it. *)
Theorem uses_custom_binaries_engines_only (environ : gmap string string) :
  (uses_custom_binaries environ = true ↔
   Forall (λ engine, ∃ v, environ !! env engine = Some v ∧ v ≠ "") ENGINES) ∧
  (∀ v, uses_custom_binaries (<["PRISMA_CLI_BINARY" := v]> environ)
        = uses_custom_binaries environ) ∧
  uses_custom_binaries (delete "PRISMA_CLI_BINARY" environ)
    = uses_custom_binaries environ.
Proof.
  split_and!.
  - apply uses_custom_binaries_iff.
  - intros v. unfold uses_custom_binaries, environ_get_truthy.
    by rewrite !lookup_insert_ne by done.
  - unfold uses_custom_binaries, environ_get_truthy.
    by rewrite !lookup_delete_ne by done.
Qed.

Section CacheFacts.
Variable PRISMA_CLI_NAME : string.
Variable binary_cache_dir : string.
Variable path : gmap string string → Binary → string.
Variable fetch : Binary → gset string → result () * gset string.

(** The loop leaves the environment alone and calls [download()] on a prefix
    of the list, on the whole list when no call raises. *)
Lemma download_each_calls (binaries : list Binary) (w : world) :
  ∃ n,
    environ (download_each fetch binaries w).2 = environ w ∧
    downloads (download_each fetch binaries w).2 = downloads w ++ take n binaries ∧
    (is_Ok (download_each fetch binaries w).1 = true → take n binaries = binaries) ∧
    (binaries ≠ [] → (0 < n)%nat).
Proof.
  revert w. induction binaries as [|binary binaries IH]; intros w.
  - exists 0%nat. cbn. by rewrite app_nil_r.
  - cbn [download_each]. unfold download.
    destruct (fetch binary (files w)) as [[[]|e] files'] eqn:Hfetch.
    + destruct (IH {| environ := environ w; files := files';
                      downloads := downloads w ++ [binary] |})
        as (n & Henv & Hcalls & Hok & _).
      exists (S n). cbv iota beta. cbn [environ downloads] in Henv, Hcalls.
      split_and!; [exact Henv| | |lia].
      * rewrite Hcalls. cbn [take]. by rewrite <- app_assoc.
      * intros Hall. cbn [take]. by rewrite (Hok Hall).
    + exists 1%nat. cbn. split_and!; [done|done|done|lia].
Qed.

Lemma download_each_all_Ok (binaries : list Binary) (w : world) :
  (∀ binary files, (fetch binary files).1 = Ok ()) →
  (download_each fetch binaries w).1 = Ok ().
Proof.
  intros Hfetch. revert w. induction binaries as [|binary binaries IH]; intros w.
  - reflexivity.
  - cbn [download_each]. unfold download.
    specialize (Hfetch binary (files w)).
    destruct (fetch binary (files w)) as [r files']. cbn in Hfetch. subst r.
    apply IH.
Qed.

(** The loop runs the transfers of the list on the files, in list order. *)
Lemma download_each_transfers (binaries : list Binary) (w : world) :
  (download_each fetch binaries w).1 = (transfers fetch binaries (files w)).1 ∧
  files (download_each fetch binaries w).2 = (transfers fetch binaries (files w)).2.
Proof.
  revert w. induction binaries as [|binary binaries IH]; intros w; [done|].
  cbn [download_each transfers]. unfold download.
  destruct (fetch binary (files w)) as [[[]|e] files'] eqn:Hfetch; [|done].
  apply (IH {| environ := environ w; files := files';
               downloads := downloads w ++ [binary] |}).
Qed.

(** C4: with the four engine variables set to non-empty values, or with no
    binary missing from the cache, [ensure_cached] returns the cache directory
    and leaves the files and the download record as they were.  Otherwise it
    calls [download()] on the binaries found missing, in their order in
    [BINARIES], starting with the first: the files it leaves are those the
    transfers of these binaries make of the files it found, each transfer
    run on what the one before left, up to the first that raises; it raises
    what that transfer raises, and returns the cache directory when none
    does, after a call for each missing binary.  The environment is left
    alone. *)
Theorem ensure_cached_downloads_missing (w : world) :
  (Forall (λ engine, ∃ v, environ w !! env engine = Some v ∧ v ≠ "") ENGINES
   ∨ not_cached PRISMA_CLI_NAME path w = [] →
   ensure_cached PRISMA_CLI_NAME binary_cache_dir path fetch w
     = (Ok binary_cache_dir, w)) ∧
  (uses_custom_binaries (environ w) = false →
   not_cached PRISMA_CLI_NAME path w ≠ [] →
   ∀ r w',
     ensure_cached PRISMA_CLI_NAME binary_cache_dir path fetch w = (r, w') →
     (∃ n, (0 < n)%nat ∧
           downloads w' = downloads w ++ take n (not_cached PRISMA_CLI_NAME path w)) ∧
     (∀ p, r = Ok p →
           p = binary_cache_dir ∧
           downloads w' = downloads w ++ not_cached PRISMA_CLI_NAME path w) ∧
     environ w' = environ w ∧
     files w' = (transfers fetch (not_cached PRISMA_CLI_NAME path w) (files w)).2 ∧
     r = match (transfers fetch (not_cached PRISMA_CLI_NAME path w) (files w)).1 with
         | Ok _ => Ok binary_cache_dir
         | Raise e => Raise e
         end) ∧
  ((∀ binary files, (fetch binary files).1 = Ok ()) →
   (ensure_cached PRISMA_CLI_NAME binary_cache_dir path fetch w).1
     = Ok binary_cache_dir) ∧
  not_cached PRISMA_CLI_NAME path w `sublist_of` BINARIES PRISMA_CLI_NAME.
Proof.
  split_and!.
  - intros Hskip. unfold ensure_cached.
    destruct Hskip as [->%uses_custom_binaries_iff| ->]; [by rewrite orb_true_r|done].
  - intros Hcustom Hmissing r w'. unfold ensure_cached.
    rewrite Hcustom, orb_false_r, bool_decide_eq_false_2 by done.
    destruct (download_each_calls (not_cached PRISMA_CLI_NAME path w) w)
      as (n & Henv & Hcalls & Hok & Hpos).
    destruct (download_each_transfers (not_cached PRISMA_CLI_NAME path w) w)
      as [Hend Hfiles].
    destruct (download_each fetch (not_cached PRISMA_CLI_NAME path w) w)
      as [[[]|e] w''] eqn:Heach; intros [= <- <-]; cbn [fst snd] in *;
      rewrite <- Hend.
    + split_and!; [exists n; split; [by apply Hpos|done]| |done|done|done].
      intros p [= <-]. split; [done|]. by rewrite Hcalls, Hok.
    + split_and!; [exists n; split; [by apply Hpos|done]| |done|done|done].
      by intros p [=].
  - intros Hfetch. unfold ensure_cached.
    destruct (bool_decide _ || _); [done|].
    pose proof (download_each_all_Ok (not_cached PRISMA_CLI_NAME path w) w Hfetch)
      as Hall.
    destruct (download_each fetch _ w) as [[[]|e] w'']; [done|]. by cbn in Hall.
  - apply sublist_filter.
Qed.

End CacheFacts.

Lemma ensure_cached_downloads_missing_witness :
  length (not_cached "prisma" cache_path all_overridden) = 5%nat ∧
  ensure_cached "prisma" "/cache" cache_path fetch_to_cache all_overridden
    = (Ok "/cache", all_overridden) ∧
  uses_custom_binaries (environ partly_cached) = false ∧
  not_cached "prisma" cache_path partly_cached
    = [ {| name := "query-engine"; env := "PRISMA_QUERY_ENGINE_BINARY" |};
        {| name := "prisma-fmt"; env := "PRISMA_FMT_BINARY" |} ] ∧
  ∀ r w',
    ensure_cached "prisma" "/cache" cache_path fetch_to_cache partly_cached = (r, w') →
    r = Ok "/cache" ∧
    downloads w'
      = [ {| name := "query-engine"; env := "PRISMA_QUERY_ENGINE_BINARY" |};
          {| name := "prisma-fmt"; env := "PRISMA_FMT_BINARY" |} ] ∧
    files w'
      = {[ "/cache/prisma-fmt" ]} ∪ ({[ "/cache/query-engine" ]} ∪ files partly_cached).
Proof.
  assert (uses_custom_binaries (environ partly_cached) = false) as Hcustom
    by (vm_compute; reflexivity).
  assert (not_cached "prisma" cache_path partly_cached
          = [ {| name := "query-engine"; env := "PRISMA_QUERY_ENGINE_BINARY" |};
              {| name := "prisma-fmt"; env := "PRISMA_FMT_BINARY" |} ]) as Hmissing
    by (vm_compute; reflexivity).
  split_and!; [by vm_compute| |exact Hcustom|exact Hmissing|].
  { apply (proj1 (ensure_cached_downloads_missing "prisma" "/cache"
                    cache_path fetch_to_cache all_overridden)).
    left. apply uses_custom_binaries_iff. by vm_compute. }
  intros r w' Hrun.
  destruct (proj1 (proj2 (ensure_cached_downloads_missing "prisma" "/cache"
                            cache_path fetch_to_cache partly_cached))
              Hcustom (eq_ind_r (λ l, l ≠ []) (λ H, nil_cons (eq_sym H)) Hmissing)
              r w' Hrun) as (_ & Hret & _ & Hfiles & Hr).
  rewrite Hmissing in Hfiles, Hr. cbn [transfers fetch_to_cache fst snd] in Hfiles, Hr.
  split_and!; [exact Hr| |exact Hfiles].
  destruct (Hret "/cache" Hr) as [_ Hcalls]. rewrite Hcalls, Hmissing. reflexivity.
Defined.

End BinariesFacts.

(** * Further properties of the deserialiser *)

Section MoreLoopFacts.
Context {A B : Type}.

Lemma for_each_app (f : A → result B) l1 l2 :
  for_each f (l1 ++ l2) =
    (ys1 ← for_each f l1; ys2 ← for_each f l2; Ok (ys1 ++ ys2)).
Proof.
  induction l1 as [|x l1 IH]; cbn [for_each app].
  - cbn. by destruct (for_each f l2).
  - destruct (f x) as [y|e]; [|done]. cbn. rewrite IH.
    destruct (for_each f l1) as [ys1|e]; [|done]. cbn.
    by destruct (for_each f l2).
Qed.

(** The exception of a loop is the one of the first body that raises. *)
Lemma for_each_first_Raise (f : A → result B) pre x post e :
  Forall (λ x, is_Ok (f x) = true) pre → f x = Raise e →
  for_each f (pre ++ x :: post) = Raise e.
Proof.
  intros Hpre Hx. rewrite for_each_app. apply for_each_all_Ok in Hpre.
  destruct (for_each f pre) as [ys|e']; [|done]. cbn. by rewrite Hx.
Qed.

Lemma for_each_Ok_rowwise (f : A → result B) l ys :
  for_each f l = Ok ys →
  length ys = length l ∧
  ∀ i x, l !! i = Some x → ∃ y, ys !! i = Some y ∧ f x = Ok y.
Proof.
  intros Hys. split; [by eapply for_each_Ok_length|].
  intros i x Hi. destruct (for_each_Ok_lookup _ _ _ _ _ Hys Hi) as (y & ? & ?).
  eauto.
Qed.

End MoreLoopFacts.

Section ResultSetFacts.
Context {float : Type} `{L : PyLib float}.
Local Abbreviation raw := (raw float).
Local Abbreviation out := (out float).

Lemma deserialize_raw_results_eq {T} (raw_list : list raw)
    (model : option (model_class float T)) :
  deserialize_raw_results raw_list model =
  for_each (λ obj, _deserialize_prisma_object obj (for_model_of model) model) raw_list.
Proof. by destruct model. Qed.

Lemma parse_raw_results_eq {T} (raw_list : list raw)
    (model : option (model_class float T)) :
  parse_raw_results raw_list model =
  for_each (λ entry, d ← _parse_prisma_obj entry; parsed_row model d) raw_list.
Proof. by destruct model. Qed.

(** X1: [deserialize_raw_results] returns one result a row, in the order of
    the rows, each the conversion of its row with the flag [for_model] set
    exactly when a model is given; it returns whenever every row converts. *)
Theorem deserialize_raw_results_rowwise {T} (raw_list : list raw)
    (model : option (model_class float T)) :
  (∀ res,
     deserialize_raw_results raw_list model = Ok res →
     length res = length raw_list ∧
     ∀ i obj, raw_list !! i = Some obj →
       ∃ r, res !! i = Some r ∧
            _deserialize_prisma_object obj (for_model_of model) model = Ok r) ∧
  (Forall (λ obj, is_Ok (_deserialize_prisma_object obj (for_model_of model) model)
                  = true) raw_list →
   is_Ok (deserialize_raw_results raw_list model) = true).
Proof.
  rewrite deserialize_raw_results_eq. split.
  - intros res. apply for_each_Ok_rowwise.
  - apply for_each_all_Ok.
Qed.

(** X2: when a row fails and the rows before it convert, the whole call
    raises the exception of that row, whatever follows it: no list of the
    rows converted so far is returned. *)
Theorem deserialize_raw_results_first_error {T} (pre post : list raw) (obj : raw)
    (model : option (model_class float T)) e :
  Forall (λ o, is_Ok (_deserialize_prisma_object o (for_model_of model) model) = true)
         pre →
  _deserialize_prisma_object obj (for_model_of model) model = Raise e →
  deserialize_raw_results (pre ++ obj :: post) model = Raise e.
Proof.
  intros Hpre Hobj. rewrite deserialize_raw_results_eq.
  by apply for_each_first_Raise.
Qed.

(** X3: [parse_raw_results] returns one result a row, in the order of the
    rows: the mapping [_parse_prisma_obj] makes of the row, as it is without a
    model and handed to [model.parse_obj] with one.  It returns exactly when
    every row parses and, with a model, the model accepts each mapping. *)
Theorem parse_raw_results_rowwise {T} (raw_list : list raw)
    (model : option (model_class float T)) :
  (∀ res,
     parse_raw_results raw_list model = Ok res →
     length res = length raw_list ∧
     ∀ i entry, raw_list !! i = Some entry →
       ∃ d r, res !! i = Some r ∧
              _parse_prisma_obj entry = Ok d ∧ parsed_row model d = Ok r) ∧
  (is_Ok (parse_raw_results raw_list model) = true ↔
   Forall (λ entry, ∃ d r, _parse_prisma_obj entry = Ok d ∧ parsed_row model d = Ok r)
          raw_list).
Proof.
  rewrite !parse_raw_results_eq. split.
  - intros res Hres. apply for_each_Ok_rowwise in Hres as [Hlen Hrows].
    split; [done|]. intros i entry Hi.
    destruct (Hrows i entry Hi) as (r & Hr & Hentry).
    destruct (_parse_prisma_obj entry) as [d|e]; [|done]. eauto.
  - split.
    + intros Hres. apply for_each_Ok_Forall in Hres.
      eapply Forall_impl; [exact Hres|]. intros entry. cbv beta.
      destruct (_parse_prisma_obj entry) as [d|e]; [|done]. cbn [mbind result_bind].
      destruct (parsed_row model d) as [r|e] eqn:Hr; [|done]. eauto.
    + intros Hrows. apply for_each_all_Ok.
      eapply Forall_impl; [exact Hrows|]. intros entry (d & r & -> & Hr).
      cbn [mbind result_bind]. by rewrite Hr.
Qed.

End ResultSetFacts.

Section FieldFacts.
Context {float : Type} `{L : PyLib float}.
Local Abbreviation raw := (raw float).
Local Abbreviation out := (out float).

(** Looking a key up after the loop finds the converted value of the item
    found under the key before it. *)
Lemma dict_get_zip {A V} (f : A → result V) (d : list (string * A)) vs key :
  for_each (λ kv, f kv.2) d = Ok vs →
  match dict_get d key with
  | Some x => ∃ v, dict_get (zip (keys d) vs) key = Some v ∧ f x = Ok v
  | None => dict_get (zip (keys d) vs) key = None
  end.
Proof.
  revert vs. induction d as [|[k x] d IH]; intros vs; cbn [for_each].
  - by intros [= <-].
  - cbn [snd]. destruct (f x) as [v|e] eqn:Hx; [|done]. cbn.
    destruct (for_each (λ kv, f kv.2) d) as [vs'|e]; [|done]. cbn.
    intros [= <-]. cbn. destruct (String.eqb k key); [eauto|].
    by apply IH.
Qed.

(** X4: in the mapping returned for a row, the value under a field name is
    the conversion of the leaf the row holds under that name, on the full path
    and on the raw-parse path alike, and a name the row lacks is absent. *)
Theorem row_converted_field_by_field {T} (d : dict raw) for_model key :
  NoDup (keys d) →
  (∀ new_obj,
     _deserialize_prisma_object (T:=T) (RDict d) for_model None
       = Ok (Mapping new_obj) →
     match dict_get d key with
     | Some leaf => ∃ o, dict_get new_obj key = Some o ∧
                         deserialize_field for_model leaf = Ok o
     | None => dict_get new_obj key = None
     end) ∧
  (∀ new_obj,
     _parse_prisma_obj (RDict d) = Ok new_obj →
     match dict_get d key with
     | Some leaf => ∃ v, dict_get new_obj key = Some v ∧ _parse_value leaf = Ok v
     | None => dict_get new_obj key = None
     end).
Proof.
  intros Hnd. rewrite _deserialize_prisma_object_NoDup, _parse_prisma_obj_NoDup by done.
  split; intros new_obj Hrow.
  - destruct (for_each _ d) as [vs|e] eqn:Hvs; [|done]. injection Hrow as <-.
    exact (dict_get_zip (deserialize_field for_model) d vs key Hvs).
  - destruct (for_each _ d) as [vs|e] eqn:Hvs; [|done]. injection Hrow as <-.
    exact (dict_get_zip _parse_value d vs key Hvs).
Qed.

(** X5: the fields of a row are converted in the row's order and the first
    conversion that raises decides the outcome: the row raises that exception,
    with or without a model, whatever the later fields hold. *)
Theorem row_raises_first_field_error {T} (d : dict raw) i key leaf for_model
    (model : option (model_class float T)) e :
  d !! i = Some (key, leaf) →
  Forall (λ kv, is_Ok (deserialize_field for_model kv.2) = true) (take i d) →
  deserialize_field for_model leaf = Raise e →
  _deserialize_prisma_object (RDict d) for_model model = Raise e.
Proof.
  intros Hi Hbefore Hleaf. rewrite _deserialize_prisma_object_eq.
  rewrite <- (take_drop_middle d i _ Hi), for_fold_app.
  destruct (for_fold_all_Ok
              (λ new_obj kv, v ← deserialize_field for_model kv.2;
                             Ok (dict_setitem new_obj kv.1 v))
              (take i d)) with (s := @nil (string * out)) as [s' ->].
  { eapply Forall_impl; [exact Hbefore|]. intros kv Hkv s. cbv beta in Hkv.
    destruct (deserialize_field for_model kv.2); cbn in *; done. }
  cbn [mbind result_bind for_fold fst snd]. by rewrite Hleaf.
Qed.

End FieldFacts.

Section ArrayFacts.
Context {float : Type} `{L : PyLib float}.
Local Abbreviation raw := (raw float).
Local Abbreviation out := (out float).

(** X6: [_deserialize_array] converts a list entry by entry: the list it
    returns has the length of the payload and holds at each position the
    conversion of the entry at that position; it returns whenever every entry
    converts, raises the exception of the first entry that does not, and an
    entry tagged [array] is converted by [_deserialize_array] itself. *)
Theorem _deserialize_array_entrywise (l : list raw) for_model :
  (∀ arr,
     _deserialize_array (RList l) for_model = Ok arr →
     ∃ items_,
       arr = OList items_ ∧ length items_ = length l ∧
       ∀ i entry, l !! i = Some entry →
         ∃ o, items_ !! i = Some o ∧ deserialize_entry for_model entry = Ok o) ∧
  (Forall (λ entry, is_Ok (deserialize_entry for_model entry) = true) l →
   is_Ok (_deserialize_array (RList l) for_model) = true) ∧
  (∀ pre entry post e,
     l = pre ++ entry :: post →
     Forall (λ entry, is_Ok (deserialize_entry for_model entry) = true) pre →
     deserialize_entry for_model entry = Raise e →
     _deserialize_array (RList l) for_model = Raise e) ∧
  (∀ value,
     deserialize_entry for_model (tagged "array" value)
       = _deserialize_array value for_model).
Proof.
  rewrite _deserialize_array_eq. cbn [iterate mbind result_bind]. split_and!.
  - intros arr Harr. destruct (for_each _ l) as [vs|e] eqn:Hvs; [|done].
    injection Harr as <-. exists vs. split; [done|].
    by apply for_each_Ok_rowwise.
  - intros Hall. apply for_each_all_Ok in Hall. destruct (for_each _ l); done.
  - intros pre entry post e -> Hpre Hentry.
    by rewrite (for_each_first_Raise _ pre entry post e Hpre Hentry).
  - reflexivity.
Qed.

(** X7: a payload under the tag [array] that is not a list.  [None], booleans
    and numbers cannot be iterated, and the characters of a string and the
    keys of a dictionary cannot be subscripted by a sub-field name: both paths
    raise [TypeError], except on the empty string and the empty dictionary,
    which give the empty list. *)
Theorem array_payload_not_a_list (value : raw) for_model :
  (∀ l, value ≠ RList l) →
  _deserialize_array value for_model =
    match value with
    | RStr "" | RDict [] => Ok (OList [])
    | _ => Raise TypeError
    end ∧
  _parse_value (tagged "array" value) =
    match value with
    | RStr "" | RDict [] => Ok (RList [])
    | _ => Raise TypeError
    end.
Proof.
  intros Hnot. rewrite _deserialize_array_eq, _parse_value_eq.
  cbn [tagged getitem dict_get String.eqb Ascii.eqb Bool.eqb mbind result_bind eq_str].
  destruct value as [|b|n|f|s|l|d]; try done.
  - destruct s as [|c s]; [done|]. split; reflexivity.
  - by destruct (Hnot l).
  - destruct d as [|[k v] d]; [done|]. split; [reflexivity|].
    cbn [iterate map mbind result_bind for_each fst]. by rewrite _parse_value_eq.
Qed.

(** X11: a tag that is not a string.  The raw-parse path returns the value.
    The full path returns it too when the tag is [None], a boolean or a
    number, and raises [TypeError] when the tag is a list or a dictionary,
    which cannot be looked up in the table. *)
Theorem tag_not_a_string (leaf prisma_type value : raw) for_model :
  getitem leaf "prisma__type" = Ok prisma_type →
  getitem leaf "prisma__value" = Ok value →
  isinstance_str prisma_type = false →
  _parse_value leaf = Ok value ∧
  deserialize_field for_model leaf =
    match prisma_type with
    | RList _ | RDict _ => Raise TypeError
    | _ => Ok (ORaw value)
    end.
Proof.
  intros Htype Hvalue Hstr. rewrite _parse_value_eq. unfold deserialize_field.
  rewrite Hvalue, Htype. cbn [mbind result_bind].
  destruct prisma_type; done.
Qed.

(** X9: the raw-parse path calls no converter.  Whatever the room for nested
    calls, the only exceptions of [_parse_value] are the [KeyError] of a
    missing sub-field, [TypeError] and [RecursionError], and
    [_parse_prisma_obj] adds [AttributeError], for a row that is not a
    dictionary.  [RecursionError] is not raised when there is room
    enough. *)
Theorem raw_parse_exceptions (limit : nat) (raw_obj : raw) e :
  (_parse_value_rec limit raw_obj = Raise e →
   e = KeyError "prisma__value" ∨ e = KeyError "prisma__type" ∨ e = TypeError
   ∨ e = RecursionError) ∧
  (_parse_prisma_obj_within limit raw_obj = Raise e →
   e = KeyError "prisma__value" ∨ e = KeyError "prisma__type" ∨ e = TypeError
   ∨ e = RecursionError ∨ (e = AttributeError ∧ ∀ d, raw_obj ≠ RDict d)) ∧
  (∃ enough, ∀ room,
     (enough ≤ room)%nat → _parse_value_rec room raw_obj ≠ Raise RecursionError).
Proof.
  assert (∀ (limit : nat) (raw_obj : raw),
            _parse_value_rec limit raw_obj = Raise e →
            e = KeyError "prisma__value" ∨ e = KeyError "prisma__type"
            ∨ e = TypeError ∨ e = RecursionError) as Hvalue.
  { clear limit raw_obj. intros limit.
    induction limit as [|limit IH]; intros raw_obj; cbn [_parse_value_rec].
    { intros [= <-]. auto. }
    assert (∀ key e', getitem raw_obj key = Raise e' →
                      e' = KeyError key ∨ e' = TypeError) as Hget.
    { intros key e'. destruct raw_obj as [| | | | | |d]; cbn;
        try (intros [= <-]; by right).
      destruct (dict_get d key); [done|]. intros [= <-]. by left. }
    destruct (getitem raw_obj "prisma__value") as [value|e1] eqn:Hv; cbn.
    2:{ intros [= ->]. destruct (Hget _ _ Hv); auto. }
    destruct (getitem raw_obj "prisma__type") as [prisma_type|e1] eqn:Ht; cbn.
    2:{ intros [= ->]. destruct (Hget _ _ Ht); auto. }
    destruct (eq_str prisma_type "array"); [|done].
    destruct (iterate value) as [entries|e1] eqn:Hentries; cbn.
    2:{ intros [= ->]. destruct value; cbn in Hentries; try done;
          injection Hentries as <-; auto. }
    destruct (for_each (_parse_value_rec limit) entries) as [parsed|e1] eqn:Hparsed;
      [done|].
    cbn. intros [= ->].
    destruct (for_each_Raise_inv _ _ _ Hparsed) as (entry & Hentry & Hraise).
    by eapply IH. }
  split_and!; [apply Hvalue| |].
  - unfold _parse_prisma_obj_within.
    destruct raw_obj as [| | | | | |d]; cbn [items mbind result_bind];
      try (intros [= <-]; right; right; right; right; by split).
    assert (∀ acc : dict raw,
              for_fold (λ new_obj kv, v ← _parse_value_rec limit kv.2;
                                      Ok (dict_setitem new_obj kv.1 v)) d acc
                = Raise e →
              e = KeyError "prisma__value" ∨ e = KeyError "prisma__type"
              ∨ e = TypeError ∨ e = RecursionError) as Hfold.
    { induction d as [|[k leaf] d IH]; intros acc; [done|].
      cbn [for_fold fst snd].
      destruct (_parse_value_rec limit leaf) as [v|e1] eqn:Hleaf;
        cbn [mbind result_bind].
      - apply IH.
      - intros [= ->]. by apply Hvalue in Hleaf. }
    intros Hrow. destruct (Hfold _ Hrow) as [?|[?|[?|?]]]; auto.
  - exists (S (depth raw_obj)). intros room Hroom.
    rewrite _parse_value_rec_enough by lia. apply _parse_value_total.
Qed.

End ArrayFacts.

Section PathFacts.
Context {float : Type} `{L : PyLib float}.
Local Abbreviation raw := (raw float).
Local Abbreviation out := (out float).

Lemma _parse_value_malformed (leaf : raw) :
  malformed leaf → ∃ e, _parse_value leaf = Raise e.
Proof.
  induction 1 as [d [Hvalue|Htype]|d l entry Htype Hvalue Hin _ [e IH]];
    rewrite _parse_value_eq; unfold getitem.
  - rewrite Hvalue. cbn. eauto.
  - rewrite Htype. destruct (dict_get d "prisma__value"); cbn; eauto.
  - rewrite Hvalue, Htype. cbn [mbind result_bind eq_str String.eqb Ascii.eqb Bool.eqb iterate].
    destruct (for_each_Raise _ _ _ _ Hin IH) as [e' ->]. cbn. eauto.
Qed.

(** X10: the raw-parse path, too, returns no row that has a leaf without
    [prisma__type] or [prisma__value], at the top level or inside an array:
    [_parse_value] raises on the leaf, [_parse_prisma_obj] on the row and
    [parse_raw_results] on every list holding the row.  On a leaf that itself
    lacks a sub-field the exception is the [KeyError] of [prisma__value] when
    that is missing, of [prisma__type] otherwise. *)
Theorem raw_parse_malformed_leaf_fails {T} (d : dict raw) key leaf :
  (key, leaf) ∈ d →
  malformed leaf →
  (∃ e, _parse_value leaf = Raise e) ∧
  (∃ e, _parse_prisma_obj (RDict d) = Raise e) ∧
  (∀ rows (model : option (model_class float T)),
     RDict d ∈ rows → ∃ e, parse_raw_results rows model = Raise e) ∧
  (∀ dl, leaf = RDict dl →
         dict_get dl "prisma__value" = None ∨ dict_get dl "prisma__type" = None →
         _parse_value leaf = Raise (KeyError (missing_subfield dl))).
Proof.
  intros Hin Hbad. destruct (_parse_value_malformed leaf Hbad) as [e He].
  assert (∃ e, _parse_prisma_obj (RDict d) = Raise e) as [e' He'].
  { unfold _parse_prisma_obj. cbn [items mbind result_bind].
    apply (for_fold_Raise _ d (key, leaf) Hin). intros s. cbn [fst snd].
    rewrite He. cbn. eauto. }
  split_and!; [eauto|eauto| |].
  - intros rows model Hrows. rewrite parse_raw_results_eq.
    eapply for_each_Raise; [exact Hrows|]. cbv beta. by rewrite He'.
  - intros dl -> Hlacks. rewrite _parse_value_eq. unfold getitem, missing_subfield.
    destruct Hlacks as [Hvalue|Htype].
    + by rewrite Hvalue.
    + rewrite Htype. by destruct (dict_get dl "prisma__value").
Qed.

Lemma mentions_json_getitem (obj : raw) key v :
  mentions_json obj = false → getitem obj key = Ok v → mentions_json v = false.
Proof.
  destruct obj as [| | | | | |d]; try done. cbn [mentions_json getitem].
  intros [_ Hd]%orb_false_iff. destruct (dict_get d key) as [w|] eqn:Hw; [|done].
  intros [= <-]. induction d as [|[k x] d IH]; [done|].
  cbn in Hw, Hd. apply orb_false_iff in Hd as [Hx Hd].
  destruct (String.eqb k key); [by injection Hw as <-|by apply IH].
Qed.

Lemma mentions_json_iterate (value : raw) entries entry :
  mentions_json value = false → iterate value = Ok entries → entry ∈ entries →
  mentions_json entry = false.
Proof.
  destruct value as [| | | |s|l|d]; try done; intros Hjson [= <-] Hentry.
  - by apply list_elem_of_In, in_map_iff in Hentry as (c & <- & _).
  - cbn in Hjson. destruct (mentions_json entry) eqn:Hj; [|done].
    rewrite <- Hjson. symmetry. apply existsb_exists. exists entry.
    split; [by apply list_elem_of_In|done].
  - by apply list_elem_of_In, in_map_iff in Hentry as (c & <- & _).
Qed.

(** Every converter but the one of [json] and [array] ignores the flag. *)
Lemma convert_or_pass_flag (prisma_type value : raw) :
  eq_str prisma_type "json" = false →
  _deserialize_array value true = _deserialize_array value false →
  convert_or_pass DESERIALIZERS prisma_type value true =
  convert_or_pass DESERIALIZERS prisma_type value false.
Proof.
  intros Hjson Harray. destruct prisma_type as [| | | |s| |]; try done.
  unfold convert_or_pass, contains, DESERIALIZERS, DESERIALIZERS_with.
  cbn [dict_get mbind result_bind]. cbn in Hjson.
  rewrite String.eqb_sym in Hjson. rewrite Hjson.
  repeat (match goal with |- context [String.eqb ?k s] =>
            destruct (String.eqb k s) eqn:? end; [done|]).
  done.
Qed.

Lemma for_model_irrelevant (n : nat) :
  ∀ value : raw,
    (depth value < n)%nat → mentions_json value = false →
    _deserialize_array value true = _deserialize_array value false ∧
    deserialize_entry true value = deserialize_entry false value ∧
    deserialize_field true value = deserialize_field false value.
Proof.
  induction n as [|n IH]; intros value Hdepth Hjson; [lia|].
  assert (∀ leaf : raw,
            (depth leaf < S n)%nat → mentions_json leaf = false →
            ∀ prisma_type payload,
              getitem leaf "prisma__type" = Ok prisma_type →
              getitem leaf "prisma__value" = Ok payload →
              convert_or_pass DESERIALIZERS prisma_type payload true =
              convert_or_pass DESERIALIZERS prisma_type payload false) as Hconv.
  { intros leaf Hleaf Hj prisma_type payload Htype Hpayload.
    apply convert_or_pass_flag.
    - destruct leaf as [| | | | | |d]; try done. cbn in Htype, Hj.
      apply orb_false_iff in Hj as [Hj _].
      destruct (dict_get d "prisma__type"); [|done]. by injection Htype as <-.
    - apply IH.
      + apply depth_getitem in Hpayload. lia.
      + by eapply mentions_json_getitem. }
  split_and!.
  - rewrite !_deserialize_array_eq.
    destruct (iterate value) as [entries|e] eqn:Hentries; [|done].
    cbn [mbind result_bind].
    rewrite (for_each_ext (deserialize_entry true) (deserialize_entry false));
      [done|].
    intros entry Hentry. unfold deserialize_entry.
    destruct (getitem entry "prisma__type") as [prisma_type|e] eqn:Htype; [|done].
    destruct (getitem entry "prisma__value") as [payload|e] eqn:Hpayload; [|done].
    cbn [mbind result_bind].
    pose proof (depth_iterate _ _ _ Hentries Hentry).
    apply (Hconv entry); [lia| |done|done].
    by eapply mentions_json_iterate.
  - unfold deserialize_entry.
    destruct (getitem value "prisma__type") as [prisma_type|e] eqn:Htype; [|done].
    destruct (getitem value "prisma__value") as [payload|e] eqn:Hpayload; [|done].
    cbn [mbind result_bind]. by apply (Hconv value).
  - unfold deserialize_field.
    destruct (getitem value "prisma__value") as [payload|e] eqn:Hpayload; [|done].
    destruct (getitem value "prisma__type") as [prisma_type|e] eqn:Htype; [|done].
    cbn [mbind result_bind]. by apply (Hconv value).
Qed.

(** X8: the flag [for_model] matters at the tag [json] only.  On a row in
    which no dictionary carries the tag [json], the conversion with the flag
    set and the conversion without it give the same mapping or raise the same
    exception, so that with a model the row is validated on exactly the
    mapping that is returned without one. *)
Theorem for_model_only_matters_for_json {T} (raw_obj : raw) (model : model_class float T) :
  mentions_json raw_obj = false →
  _deserialize_prisma_object (T:=T) raw_obj true None
    = _deserialize_prisma_object raw_obj false None ∧
  _deserialize_prisma_object raw_obj true (Some model) =
    (r ← _deserialize_prisma_object (T:=T) raw_obj false None;
     match r with
     | Mapping new_obj => Instance_ <$> model new_obj
     | Instance_ m => Ok (Instance_ m)
     end).
Proof.
  intros Hjson. destruct raw_obj as [| | | | | |d]; try done.
  rewrite !_deserialize_prisma_object_eq.
  assert (for_fold (λ new_obj kv, v ← deserialize_field true kv.2;
                                  Ok (dict_setitem new_obj kv.1 v)) d []
          = for_fold (λ new_obj kv, v ← deserialize_field false kv.2;
                                    Ok (dict_setitem new_obj kv.1 v)) d [])
    as ->.
  { cbn in Hjson. apply orb_false_iff in Hjson as [_ Hjson].
    generalize (@nil (string * out)).
    induction d as [|[k leaf] d IH]; intros acc; [done|].
    cbn in Hjson. apply orb_false_iff in Hjson as [Hleaf Hd].
    cbn [for_fold fst snd].
    destruct (for_model_irrelevant (S (depth leaf)) leaf) as (_ & _ & ->);
      [lia|done|].
    destruct (deserialize_field false leaf); [|done]. cbn. by apply IH. }
  split; [done|].
  by destruct (for_fold _ d []).
Qed.

End PathFacts.

Section AgreementFacts.
Context {float : Type} `{L : PyLib float}.
Local Abbreviation raw := (raw float).
Local Abbreviation out := (out float).

Lemma unconverted_OList (o : out) (os : list out) v vs :
  unconverted o = Some v → unconverted (OList os) = Some (RList vs) →
  unconverted (OList (o :: os)) = Some (RList (v :: vs)).
Proof.
  cbn [unconverted]. intros -> Hos. cbn.
  match type of Hos with RList <$> ?g = _ => destruct g as [vs'|]; [|done] end.
  cbn in Hos. by injection Hos as <-.
Qed.

Lemma for_each_agree {A} (f : A → result out) (g : A → result raw) (l : list A) :
  (∀ x, x ∈ l → ∃ o v, f x = Ok o ∧ g x = Ok v ∧ unconverted o = Some v) →
  ∃ os vs,
    for_each f l = Ok os ∧ for_each g l = Ok vs ∧
    unconverted (OList os) = Some (RList vs) ∧
    Forall2 (λ o v, unconverted o = Some v) os vs.
Proof.
  induction l as [|x l IH]; intros Hl.
  - exists [], []. by split_and!.
  - destruct (Hl x) as (o & v & Hf & Hg & Hov); [left|].
    destruct IH as (os & vs & Hfs & Hgs & Hovs & Hall).
    { intros y Hy. apply Hl. by right. }
    exists (o :: os), (v :: vs). cbn [for_each]. rewrite Hf, Hg, Hfs, Hgs.
    split_and!; [done|done|by apply unconverted_OList|by constructor].
Qed.

Lemma absent_tag_not_array (tag : string) :
  dict_get DESERIALIZERS tag = None → String.eqb tag "array" = false.
Proof. intros Habsent. by destruct (String.eqb_spec tag "array") as [->|]. Qed.

Lemma pass_through_agree (leaf : raw) for_model :
  pass_through leaf →
  ∃ o v,
    deserialize_field for_model leaf = Ok o ∧
    deserialize_entry for_model leaf = Ok o ∧
    _parse_value leaf = Ok v ∧
    unconverted o = Some v.
Proof.
  induction 1 as [d tag value Htype Hvalue Habsent|d l Htype Hvalue _ IH];
    rewrite _parse_value_eq; unfold deserialize_field, deserialize_entry, getitem;
    rewrite Hvalue, Htype; cbn [mbind result_bind eq_str].
  - rewrite convert_or_pass_absent, absent_tag_not_array by done.
    exists (ORaw value), value. by split_and!.
  - rewrite convert_or_pass_array, _deserialize_array_eq.
    cbn [iterate mbind result_bind]. change (String.eqb "array" "array") with true.
    cbv iota.
    destruct (for_each_agree (deserialize_entry for_model) _parse_value l)
      as (os & vs & -> & -> & Hovs & _).
    { intros entry Hentry. destruct (IH entry Hentry) as (o & v & _ & ? & ? & ?).
      eauto. }
    exists (OList os), (RList vs). by split_and!.
Qed.

Lemma pass_through_well_tagged (leaf : raw) : pass_through leaf → well_tagged leaf.
Proof.
  induction 1 as [d tag value Htype Hvalue Habsent|d l Htype Hvalue _ IH].
  - eapply well_tagged_scalar; [exact Htype|exact Hvalue|].
    by apply absent_tag_not_array.
  - by eapply well_tagged_array.
Qed.

(** A tag outside the table is outside it whatever stands at [array]. *)
Lemma convert_or_pass_absent_with (f : deserializer) (tag : string) (value : raw)
    for_model :
  dict_get DESERIALIZERS tag = None →
  convert_or_pass (DESERIALIZERS_with f) (RStr tag) value for_model = Ok (ORaw value).
Proof.
  unfold convert_or_pass, contains, DESERIALIZERS, DESERIALIZERS_with.
  cbn [dict_get mbind result_bind].
  repeat (match goal with |- context [String.eqb ?k tag] => destruct (String.eqb k tag) end;
          [done|]).
  done.
Qed.

(** Under a bound on the nested calls, an array of pass-through leaves fails
    only for want of room. *)
Lemma _deserialize_array_rec_pass_through (limit : nat) (l : list raw) for_model e :
  (∀ entry, entry ∈ l → pass_through entry) →
  _deserialize_array_rec limit (RList l) for_model = Raise e → e = RecursionError.
Proof.
  revert l e. induction limit as [|limit IH]; intros l e Hl;
    cbn [_deserialize_array_rec]; [by intros [= <-]|].
  cbn [iterate mbind result_bind].
  match goal with |- context [for_each ?f l] =>
    destruct (for_each f l) as [arr|e'] eqn:Harr; [done|] end.
  cbn. intros [= ->].
  destruct (for_each_Raise_inv _ _ _ Harr) as (entry & Hentry & Hraise).
  cbv beta in Hraise.
  destruct (Hl entry Hentry) as [d tag value Htype Hvalue Habsent|d l' Htype Hvalue Hl'];
    unfold getitem in Hraise; rewrite Htype, Hvalue in Hraise;
    cbn [mbind result_bind] in Hraise.
  - by rewrite convert_or_pass_absent_with in Hraise.
  - change (convert_or_pass (DESERIALIZERS_with ?f) (RStr "array") ?v ?m)
      with (f v m) in Hraise.
    by eapply IH.
Qed.

(** X12: on leaves whose tags are strings outside the table, nested under
    [array] or not, the two paths return the same data.  Whenever the full
    path and the raw-parse path both return for a row of such leaves, the two
    mappings have the row's field names in the row's order, and what the full
    path returns under a name stands for the value the raw-parse path returns
    under it.  Whatever the room for nested calls, neither path raises on such
    a leaf anything but [RecursionError]. *)
Theorem paths_agree_on_pass_through {T} (d : dict raw) for_model :
  NoDup (keys d) →
  Forall (λ kv, pass_through kv.2) d →
  (∀ new_obj parsed,
     _deserialize_prisma_object (T:=T) (RDict d) for_model None = Ok (Mapping new_obj) →
     _parse_prisma_obj (RDict d) = Ok parsed →
     keys new_obj = keys d ∧ keys parsed = keys d ∧
     Forall2 (λ o v, unconverted o = Some v) new_obj.*2 parsed.*2) ∧
  (∀ limit e,
     _parse_prisma_obj_within limit (RDict d) = Raise e → e = RecursionError) ∧
  (∀ limit key leaf value e,
     (key, leaf) ∈ d →
     getitem leaf "prisma__type" = Ok (RStr "array") →
     getitem leaf "prisma__value" = Ok value →
     _deserialize_array_rec limit value for_model = Raise e → e = RecursionError).
Proof.
  intros Hnd Hd. split_and!.
  - intros new_obj parsed.
    rewrite _deserialize_prisma_object_NoDup, _parse_prisma_obj_NoDup by done.
    destruct (for_each_agree (λ kv : string * raw, deserialize_field for_model kv.2)
                (λ kv : string * raw, _parse_value kv.2) d)
      as (os & vs & Hos & Hvs & _ & Hall).
    { intros kv Hkv. rewrite Forall_forall in Hd.
      destruct (pass_through_agree kv.2 for_model (Hd kv Hkv)) as (o & v & ? & _ & ? & ?).
      eauto. }
    rewrite Hos, Hvs. cbn [mbind result_bind]. intros [= <-] [= <-].
    pose proof (for_each_Ok_length _ _ _ Hos) as Hlo.
    pose proof (for_each_Ok_length _ _ _ Hvs) as Hlv.
    assert (length (keys d) = length d) as Hk by (unfold keys; by rewrite length_fmap).
    split_and!.
    + apply keys_zip. lia.
    + apply keys_zip. lia.
    + rewrite !snd_zip by lia. exact Hall.
  - intros limit e. rewrite _parse_prisma_obj_within_NoDup by done.
    destruct (for_each _ d) as [vs|e'] eqn:Hvs; [done|]. cbn. intros [= ->].
    destruct (for_each_Raise_inv _ _ _ Hvs) as (kv & Hkv & Hraise).
    rewrite Forall_forall in Hd.
    eapply _parse_value_rec_well_tagged; [|exact Hraise].
    by apply pass_through_well_tagged, Hd.
  - intros limit key leaf value e Hkey Htag Hpayload.
    rewrite Forall_forall in Hd. specialize (Hd _ Hkey). cbn [snd] in Hd.
    destruct Hd as [d' tag value' Htype Hvalue Habsent|d' l Htype Hvalue Hl];
      unfold getitem in Htag, Hpayload; rewrite Htype in Htag;
      rewrite Hvalue in Hpayload; injection Hpayload as <-.
    + injection Htag as ->. done.
    + by apply _deserialize_array_rec_pass_through.
Qed.

End AgreementFacts.

(** * Further properties of the engine binary cache *)

Module MoreBinariesFacts.
Import Binaries BinariesFacts.
#[local] Set Warnings "-clear-no-such-hyp".

Lemma world_eq (w1 w2 : world) :
  environ w1 = environ w2 → files w1 = files w2 → downloads w1 = downloads w2 →
  w1 = w2.
Proof. destruct w1, w2. cbn. by intros -> -> ->. Qed.

Lemma filter_all {A} (P : A → Prop) `{!∀ x, Decision (P x)} (l : list A) :
  Forall P l → filter P l = l.
Proof.
  induction 1 as [|x l Hx _ IH]; [done|]. by rewrite filter_cons_True, IH.
Qed.

Lemma filter_none {A} (P : A → Prop) `{!∀ x, Decision (P x)} (l : list A) :
  Forall (λ x, ¬ P x) l → filter P l = [].
Proof.
  induction 1 as [|x l Hx _ IH]; [done|]. by rewrite filter_cons_False, IH.
Qed.

Section RemoveFacts.
Variable PRISMA_CLI_NAME : string.
Variable path : gmap string string → Binary → string.

Local Abbreviation BINARIES := (BINARIES PRISMA_CLI_NAME).
Local Abbreviation not_cached := (not_cached PRISMA_CLI_NAME path).
Local Abbreviation remove_all := (remove_all PRISMA_CLI_NAME path).

(** The loop of [remove_all] over any list of binaries. *)
Lemma remove_loop (binaries : list Binary) (w : world) :
  let w' := foldl (λ w binary,
                     if path_exists w (path (environ w) binary)
                     then unlink (path (environ w) binary) w
                     else w) w binaries in
  environ w' = environ w ∧ downloads w' = downloads w ∧
  files w' = files w ∖ list_to_set (path (environ w) <$> binaries).
Proof.
  revert w. induction binaries as [|binary binaries IH]; intros w; cbn.
  - split_and!; [done|done|]. set_solver.
  - set (w1 := if path_exists w (path (environ w) binary)
               then unlink (path (environ w) binary) w else w).
    assert (environ w1 = environ w ∧ downloads w1 = downloads w ∧
            files w1 = files w ∖ {[ path (environ w) binary ]}) as (Henv & Hdl & Hfiles).
    { unfold w1, path_exists. case_bool_decide; [done|].
      split_and!; [done|done|]. set_solver. }
    destruct (IH w1) as (Henv' & Hdl' & Hfiles').
    rewrite Henv', Hdl', Hfiles', Henv, Hfiles.
    split_and!; [done|done|]. set_solver.
Qed.

Lemma remove_all_spec (w : world) :
  environ (remove_all w) = environ w ∧ downloads (remove_all w) = downloads w ∧
  files (remove_all w) = files w ∖ list_to_set (path (environ w) <$> BINARIES).
Proof. exact (remove_loop BINARIES w). Qed.

Lemma remove_all_files (w : world) p :
  p ∈ files (remove_all w) ↔
  p ∈ files w ∧ ∀ binary, binary ∈ BINARIES → p ≠ path (environ w) binary.
Proof.
  destruct (remove_all_spec w) as (_ & _ & ->).
  rewrite elem_of_difference, elem_of_list_to_set, list_elem_of_fmap. split.
  - intros [Hp Hnot]. split; [done|]. intros binary Hb ->. apply Hnot. eauto.
  - intros [Hp Hnot]. split; [done|]. intros (binary & -> & Hb). by eapply Hnot.
Qed.

Lemma remove_all_not_cached (w : world) : not_cached (remove_all w) = BINARIES.
Proof.
  destruct (remove_all_spec w) as (Henv & _ & _).
  unfold Binaries.not_cached. apply filter_all, Forall_forall. intros binary Hb.
  unfold path_exists. apply bool_decide_eq_false. rewrite Henv, remove_all_files.
  intros [_ Hnot]. by eapply Hnot.
Qed.



End RemoveFacts.

Section MoreCacheFacts.
Variable PRISMA_CLI_NAME : string.
Variable binary_cache_dir : string.
Variable path : gmap string string → Binary → string.
Variable fetch : Binary → gset string → result () * gset string.

Local Abbreviation BINARIES := (BINARIES PRISMA_CLI_NAME).
Local Abbreviation not_cached := (not_cached PRISMA_CLI_NAME path).
Local Abbreviation remove_all := (remove_all PRISMA_CLI_NAME path).
Local Abbreviation ensure_cached :=
  (ensure_cached PRISMA_CLI_NAME binary_cache_dir path fetch).

(** What a run of downloads that does not raise leaves on disk, when a
    transfer that succeeds stores the binary at its path and no transfer
    deletes a file. *)
Lemma download_each_stores (binaries : list Binary) (w : world) :
  (∀ binary files,
     files ⊆ (fetch binary files).2 ∧
     ((fetch binary files).1 = Ok () → path (environ w) binary ∈ (fetch binary files).2)) →
  files w ⊆ files (download_each fetch binaries w).2 ∧
  ((download_each fetch binaries w).1 = Ok () →
   ∀ binary, binary ∈ binaries →
             path (environ w) binary ∈ files (download_each fetch binaries w).2).
Proof.
  intros Hfetch. revert w Hfetch.
  induction binaries as [|binary binaries IH]; intros w Hfetch.
  - cbn. split; [done|]. intros _ binary Hb. by apply elem_of_nil in Hb.
  - cbn [download_each]. unfold download.
    destruct (Hfetch binary (files w)) as [Hsub Hstored].
    destruct (fetch binary (files w)) as [[[]|e] files'] eqn:Hf; cbn [fst snd] in *.
    + destruct (IH {| environ := environ w; files := files';
                      downloads := downloads w ++ [binary] |} Hfetch)
        as [Hsub' Hall].
      cbn [environ files] in *. split; [set_solver|].
      intros Hok b Hb. apply elem_of_cons in Hb as [->|Hb]; [|by apply Hall].
      specialize (Hstored eq_refl). set_solver.
    + split; [done|]. by intros [=].
Qed.

(** X16: when transfers that succeed store the binary at its path and no
    transfer deletes a file, a call of [ensure_cached] that returns leaves a
    state on which a second call downloads nothing and changes nothing; unless
    the four engine variables are set, every binary is then cached. *)
Theorem ensure_cached_twice (w w' : world) p :
  (∀ binary files,
     files ⊆ (fetch binary files).2 ∧
     ((fetch binary files).1 = Ok () → path (environ w) binary ∈ (fetch binary files).2)) →
  ensure_cached w = (Ok p, w') →
  ensure_cached w' = (Ok binary_cache_dir, w') ∧
  (uses_custom_binaries (environ w) = false → not_cached w' = []).
Proof.
  intros Hfetch. unfold Binaries.ensure_cached at 1.
  destruct (bool_decide (not_cached w = [])) eqn:Hnone; cbn [orb].
  { intros [= <- <-]. apply bool_decide_eq_true in Hnone.
    split; [|done]. unfold Binaries.ensure_cached. by rewrite Hnone. }
  destruct (uses_custom_binaries (environ w)) eqn:Hcustom.
  { intros [= <- <-]. split; [|done].
    unfold Binaries.ensure_cached. by rewrite Hcustom, orb_true_r. }
  destruct (download_each_stores (not_cached w) w Hfetch) as [Hsub Hall].
  destruct (download_each_calls fetch (not_cached w) w) as (n & Henv & _).
  destruct (download_each fetch (not_cached w) w) as [[[]|e] w''] eqn:Heach;
    intros [= <- ->]; cbn [fst snd] in *.
  assert (not_cached w' = []) as Hcached.
  { unfold Binaries.not_cached. apply filter_none, Forall_forall.
    intros binary Hb. unfold path_exists. rewrite bool_decide_eq_false, Henv.
    intros Hmissing. apply Hmissing.
    destruct (decide (path (environ w) binary ∈ files w)) as [Hin|Hout];
      [set_solver|].
    apply (Hall eq_refl). unfold Binaries.not_cached. apply list_elem_of_filter.
    split; [|done]. unfold path_exists. by apply bool_decide_eq_false. }
  split; [|done]. unfold Binaries.ensure_cached. by rewrite Hcached.
Qed.

Lemma download_each_first_Raise (pre post : list Binary) (binary : Binary) e
    (w : world) :
  (∀ b files, b ∈ pre → (fetch b files).1 = Ok ()) →
  (∀ files, (fetch binary files).1 = Raise e) →
  (download_each fetch (pre ++ binary :: post) w).1 = Raise e ∧
  downloads (download_each fetch (pre ++ binary :: post) w).2
    = downloads w ++ pre ++ [binary].
Proof.
  intros Hpre Hbinary. revert w.
  induction pre as [|b pre IH]; intros w; cbn [app download_each]; unfold download.
  - specialize (Hbinary (files w)).
    destruct (fetch binary (files w)) as [r files']. cbn in Hbinary. subst r. done.
  - pose proof (Hpre b (files w) ltac:(left)) as Hb.
    destruct (fetch b (files w)) as [r files']. cbn in Hb. subst r.
    destruct (IH (λ b' fs Hb', Hpre b' fs ltac:(by right))
                 {| environ := environ w; files := files';
                    downloads := downloads w ++ [b] |}) as [Hr Hdl].
    split; [done|]. rewrite Hdl. cbn [downloads]. by rewrite <- app_assoc.
Qed.

(** X17: the first transfer that raises ends [ensure_cached]: the call raises
    that exception, [download()] has been called on the missing binaries up to
    and including the failing one, and on none of those after it. *)
Theorem ensure_cached_stops_at_first_failure (w : world) pre binary post e :
  uses_custom_binaries (environ w) = false →
  not_cached w = pre ++ binary :: post →
  (∀ b files, b ∈ pre → (fetch b files).1 = Ok ()) →
  (∀ files, (fetch binary files).1 = Raise e) →
  (ensure_cached w).1 = Raise e ∧
  downloads (ensure_cached w).2 = downloads w ++ pre ++ [binary].
Proof.
  intros Hcustom Hmissing Hpre Hbinary. unfold Binaries.ensure_cached.
  rewrite Hcustom, orb_false_r, Hmissing.
  rewrite bool_decide_eq_false_2 by by destruct pre.
  destruct (download_each_first_Raise pre post binary e w Hpre Hbinary) as [Hr Hdl].
  destruct (download_each fetch (pre ++ binary :: post) w) as [[[]|e'] w''];
    cbn [fst snd] in *; [done|]. by injection Hr as ->.
Qed.


End MoreCacheFacts.
End MoreBinariesFacts.

Section LookupOrderFacts.
Context {float : Type} `{L : PyLib float}.
Local Abbreviation raw := (raw float).
Local Abbreviation out := (out float).

(** X19: the loop over a row reads [prisma__value] before [prisma__type],
    the loop over an array the other way round.  The two loops convert a leaf
    alike, except a dictionary that has neither sub-field: the row loop raises
    the [KeyError] of [prisma__value], the array loop that of [prisma__type]. *)
Theorem row_and_array_loops_differ_on_empty_leaf (leaf : raw) for_model :
  deserialize_field for_model leaf = deserialize_entry for_model leaf ∨
  (∃ d, leaf = RDict d ∧
        dict_get d "prisma__value" = None ∧ dict_get d "prisma__type" = None ∧
        deserialize_field for_model leaf = Raise (KeyError "prisma__value") ∧
        deserialize_entry for_model leaf = Raise (KeyError "prisma__type")).
Proof.
  unfold deserialize_field, deserialize_entry.
  destruct leaf as [| | | | | |d]; try by left. cbn [getitem].
  destruct (dict_get d "prisma__value") as [value|] eqn:Hvalue,
    (dict_get d "prisma__type") as [prisma_type|] eqn:Htype; try by left.
  right. exists d. by split_and!.
Qed.

(** X18: when the parser rejects every text that has a dollar sign where the
    hour starts, as the standard one does, a leaf tagged [time] never
    converts: the full path raises on every row that holds one, with or
    without a model, while the raw-parse path returns its value. *)
Theorem time_field_never_converts {T} (d : dict raw) i key leaf value for_model
    (model : option (model_class float T)) e :
  (∀ s, fromisoformat (RStr ("1970-01-01T$" +:+ s)) = Raise e) →
  d !! i = Some (key, leaf) →
  getitem leaf "prisma__type" = Ok (RStr "time") →
  getitem leaf "prisma__value" = Ok value →
  deserialize_field for_model leaf = Raise e ∧
  (∃ e', _deserialize_prisma_object (RDict d) for_model model = Raise e') ∧
  _parse_value leaf = Ok value.
Proof.
  intros Hparser Hi Htype Hvalue.
  assert (deserialize_field for_model leaf = Raise e) as Hleaf.
  { unfold deserialize_field. rewrite Hvalue, Htype. cbn [mbind result_bind].
    change (convert_or_pass DESERIALIZERS (RStr "time") value for_model)
      with (_deserialize_time value for_model).
    unfold _deserialize_time, time_fstring. by rewrite Hparser. }
  split_and!; [done| |].
  - rewrite _deserialize_prisma_object_eq.
    destruct (for_fold_Raise
                (λ new_obj kv, v ← deserialize_field for_model kv.2;
                               Ok (dict_setitem new_obj kv.1 v))
                d (key, leaf)) with (s := @nil (string * out)) as [e' He'].
    + eapply list_elem_of_lookup_2, Hi.
    + intros s. cbn [fst snd]. rewrite Hleaf. cbn. eauto.
    + rewrite He'. cbn. eauto.
  - rewrite _parse_value_eq, Hvalue, Htype. reflexivity.
Qed.

End LookupOrderFacts.

Module DownloadFacts.
Import Binaries BinariesFacts.

Lemma NoDup_BINARIES (PRISMA_CLI_NAME : string) : NoDup (BINARIES PRISMA_CLI_NAME).
Proof.
  unfold BINARIES, ENGINES. cbn [app].
  repeat (apply NoDup_cons_2;
          [first [ apply not_elem_of_nil
                 | rewrite !not_elem_of_cons; split_and!; try done;
                   apply not_elem_of_nil ]|]).
  apply NoDup_nil_2.
Qed.

Section OnlyMissing.
Variable PRISMA_CLI_NAME : string.
Variable binary_cache_dir : string.
Variable path : gmap string string → Binary → string.
Variable fetch : Binary → gset string → result () * gset string.

(** X20: [ensure_cached] leaves the environment alone, keeps the record of
    earlier downloads, and calls [download()] only on binaries of [BINARIES]
    whose path does not exist when it starts, on none of them twice. *)
Theorem ensure_cached_downloads_only_missing (w : world) :
  environ (ensure_cached PRISMA_CLI_NAME binary_cache_dir path fetch w).2 = environ w ∧
  ∃ new,
    downloads (ensure_cached PRISMA_CLI_NAME binary_cache_dir path fetch w).2
      = downloads w ++ new ∧
    NoDup new ∧
    ∀ binary, binary ∈ new →
      binary ∈ BINARIES PRISMA_CLI_NAME ∧ path (environ w) binary ∉ files w.
Proof.
  unfold ensure_cached.
  destruct (bool_decide _ || _).
  { split; [done|]. exists []. rewrite app_nil_r. split_and!; [done|constructor|].
    intros binary Hb. by apply elem_of_nil in Hb. }
  destruct (download_each_calls fetch (not_cached PRISMA_CLI_NAME path w) w)
    as (n & Henv & Hcalls & _).
  assert (environ (download_each fetch (not_cached PRISMA_CLI_NAME path w) w).2 = environ w
          ∧ ∃ new, downloads (download_each fetch (not_cached PRISMA_CLI_NAME path w) w).2
                     = downloads w ++ new ∧ NoDup new ∧
                   ∀ binary, binary ∈ new →
                     binary ∈ BINARIES PRISMA_CLI_NAME ∧ path (environ w) binary ∉ files w)
    as Hgoal.
  { split; [done|]. exists (take n (not_cached PRISMA_CLI_NAME path w)).
    split_and!; [done| |].
    - eapply sublist_NoDup; [|apply sublist_take].
      unfold not_cached. apply NoDup_filter, NoDup_BINARIES.
    - intros binary (j & Hb%list_elem_of_lookup_2 & _)%elem_of_take.
      unfold not_cached in Hb.
      apply list_elem_of_filter in Hb as [Hmissing Hb]. split; [done|].
      unfold path_exists in Hmissing. by apply bool_decide_eq_false in Hmissing. }
  by destruct (download_each fetch _ w) as [[[]|e] w''].
Qed.

End OnlyMissing.
End DownloadFacts.

(** * The further theorems at concrete rows and caches *)

Lemma deserialize_raw_results_rowwise_witness :
  (∀ res,
     deserialize_raw_results (L:=cpython) (T:=()) rows_bigint_datetime None = Ok res →
     length res = 2%nat) ∧
  is_Ok (deserialize_raw_results (L:=cpython) (T:=()) rows_bigint_datetime None) = true.
Proof.
  pose proof (deserialize_raw_results_rowwise (L:=cpython) (T:=())
                rows_bigint_datetime None) as [Hrows Hok].
  split.
  - intros res Hres. exact (proj1 (Hrows res Hres)).
  - apply Hok. repeat constructor.
Defined.

Lemma deserialize_raw_results_first_error_witness :
  deserialize_raw_results (L:=cpython) (T:=())
    ([RDict row_two_fields] ++ row_bad_bigint_then_malformed :: [RDict row_unmapped])
    None
  = Raise ValueError.
Proof.
  apply (deserialize_raw_results_first_error (L:=cpython) (T:=())
           [RDict row_two_fields] [RDict row_unmapped]
           row_bad_bigint_then_malformed None ValueError).
  - repeat constructor.
  - reflexivity.
Defined.

Lemma parse_raw_results_rowwise_witness :
  is_Ok (parse_raw_results (T:=()) [RDict row_two_fields; RDict row_plain] None) = true ∧
  ∀ res,
    parse_raw_results (T:=()) [RDict row_two_fields; RDict row_plain] None = Ok res →
    length res = 2%nat.
Proof.
  pose proof (parse_raw_results_rowwise (T:=()) [RDict row_two_fields; RDict row_plain]
                None) as [Hrows Hreturns].
  split.
  - apply Hreturns. repeat constructor; eexists _, _; split; reflexivity.
  - intros res Hres. exact (proj1 (Hrows res Hres)).
Defined.

Lemma row_converted_field_by_field_witness :
  NoDup (keys row_two_fields) ∧
  ∀ new_obj,
    _deserialize_prisma_object (L:=cpython) (T:=()) (RDict row_two_fields) false None
      = Ok (Mapping new_obj) →
    ∃ o, dict_get new_obj "id" = Some o ∧
         deserialize_field (L:=cpython) false (tagged "bigint" (RStr "7")) = Ok o.
Proof.
  assert (NoDup (keys row_two_fields)) as Hnd.
  { apply (bool_decide_unpack (NoDup _)). vm_compute. exact I. }
  split; [exact Hnd|].
  exact (proj1 (row_converted_field_by_field (L:=cpython) (T:=())
                  row_two_fields false "id" Hnd)).
Defined.

Lemma row_raises_first_field_error_witness :
  _deserialize_prisma_object (L:=cpython) (T:=()) (RDict row_second_field_bad) false None
  = Raise ValueError.
Proof.
  apply (row_raises_first_field_error (L:=cpython) (T:=()) row_second_field_bad
           1%nat "n" (tagged "bigint" (RStr "x")) false None ValueError).
  - reflexivity.
  - repeat constructor.
  - reflexivity.
Defined.

Lemma _deserialize_array_entrywise_witness :
  is_Ok (_deserialize_array (L:=cpython)
           (RList [tagged "bigint" (RStr "1"); tagged "int" (RInt 2)]) false) = true.
Proof.
  apply (proj1 (proj2 (_deserialize_array_entrywise (L:=cpython)
                         [tagged "bigint" (RStr "1"); tagged "int" (RInt 2)] false))).
  repeat constructor.
Defined.

Lemma array_payload_not_a_list_witness :
  _deserialize_array (L:=cpython) (RStr "abc") false = Raise TypeError ∧
  _parse_value (float:=Empty_set) (tagged "array" (RStr "abc")) = Raise TypeError.
Proof.
  apply (array_payload_not_a_list (L:=cpython) (RStr "abc") false). discriminate.
Defined.

Lemma tag_not_a_string_witness :
  _parse_value leaf_list_tag = Ok (RInt 1) ∧
  deserialize_field (L:=cpython) false leaf_list_tag = Raise TypeError.
Proof.
  exact (tag_not_a_string (L:=cpython) leaf_list_tag (RList []) (RInt 1) false
           eq_refl eq_refl eq_refl).
Defined.

Lemma raw_parse_exceptions_witness :
  _parse_value_rec 1 leaf_missing_in_array = Raise RecursionError ∧
  _parse_value_rec 2 leaf_missing_in_array = Raise (KeyError "prisma__type") ∧
  (KeyError "prisma__type" = KeyError "prisma__value"
   ∨ KeyError "prisma__type" = KeyError "prisma__type"
   ∨ KeyError "prisma__type" = TypeError
   ∨ KeyError "prisma__type" = RecursionError).
Proof.
  split_and!; [reflexivity|reflexivity|].
  exact (proj1 (raw_parse_exceptions 2 leaf_missing_in_array (KeyError "prisma__type"))
           eq_refl).
Defined.

Lemma raw_parse_malformed_leaf_fails_witness :
  _parse_value (float:=Empty_set) (RDict [("prisma__type", RStr "string")])
    = Raise (KeyError "prisma__value") ∧
  ∃ e, _parse_prisma_obj (RDict row_missing_value) = Raise e.
Proof.
  assert (malformed (float:=Empty_set) (RDict [("prisma__type", RStr "string")]))
    as Hbad by (apply malformed_leaf; by left).
  pose proof (raw_parse_malformed_leaf_fails (T:=()) row_missing_value "name" _
                ltac:(right; left) Hbad) as (_ & Hrow & _ & Hkey).
  split; [|exact Hrow].
  apply (Hkey [("prisma__type", RStr "string")] eq_refl). by left.
Defined.

Lemma for_model_only_matters_for_json_witness :
  mentions_json (RDict row_two_fields) = false ∧
  _deserialize_prisma_object (L:=cpython) (T:=()) (RDict row_two_fields) true None
    = _deserialize_prisma_object (L:=cpython) (RDict row_two_fields) false None.
Proof.
  split; [reflexivity|].
  exact (proj1 (for_model_only_matters_for_json (L:=cpython) (T:=())
                  (RDict row_two_fields) (λ _, Ok ()) eq_refl)).
Defined.

Lemma paths_agree_on_pass_through_witness :
  ∃ new_obj parsed,
    _deserialize_prisma_object (L:=cpython) (T:=()) (RDict row_plain) false None
      = Ok (Mapping new_obj) ∧
    _parse_prisma_obj (RDict row_plain) = Ok parsed ∧
    keys new_obj = keys row_plain ∧ keys parsed = keys row_plain ∧
    Forall2 (λ o v, unconverted o = Some v) new_obj.*2 parsed.*2.
Proof.
  eexists _, _. split; [reflexivity|]. split; [reflexivity|].
  apply (proj1 (paths_agree_on_pass_through (L:=cpython) (T:=()) row_plain false
                  ltac:(apply (bool_decide_unpack (NoDup _)); vm_compute; exact I)
                  ltac:(repeat constructor;
                        [ by eapply (pass_through_scalar _ "int")
                        | eapply pass_through_array; [done|done|];
                          intros entry Hentry;
                          apply elem_of_cons in Hentry as [->|Hentry];
                          [ by eapply (pass_through_scalar _ "int")
                          | apply list_elem_of_singleton in Hentry as ->;
                            by eapply (pass_through_scalar _ "string") ] ]))).
  - reflexivity.
  - reflexivity.
Defined.

Lemma time_field_never_converts_witness :
  deserialize_field (L:=cpython) false (tagged "time" (RStr "09:00:00"))
    = Raise ValueError ∧
  (∃ e', _deserialize_prisma_object (L:=cpython) (T:=()) (RDict row_with_time) false None
         = Raise e') ∧
  _parse_value (float:=Empty_set) (tagged "time" (RStr "09:00:00")) = Ok (RStr "09:00:00").
Proof.
  apply (time_field_never_converts (L:=cpython) (T:=()) row_with_time 1%nat "opens"
           (tagged "time" (RStr "09:00:00")) (RStr "09:00:00") false None ValueError).
  - intros s. apply fromisoformat_dollar.
  - reflexivity.
  - reflexivity.
  - reflexivity.
Defined.

Module MoreBinariesWitnesses.
Import Binaries MoreBinariesFacts.

Lemma fetch_to_cache_stores (w : world) binary files :
  files ⊆ (fetch_to_cache binary files).2 ∧
  ((fetch_to_cache binary files).1 = Ok () →
   cache_path (environ w) binary ∈ (fetch_to_cache binary files).2).
Proof. unfold fetch_to_cache, cache_path. cbn. set_solver. Qed.


Lemma ensure_cached_twice_witness :
  let w' := (ensure_cached "prisma" "/cache" cache_path fetch_to_cache partly_cached).2 in
  ensure_cached "prisma" "/cache" cache_path fetch_to_cache w' = (Ok "/cache", w') ∧
  not_cached "prisma" cache_path w' = [].
Proof.
  intros w'.
  destruct (ensure_cached_twice "prisma" "/cache" cache_path fetch_to_cache
              partly_cached w' "/cache" (fetch_to_cache_stores partly_cached))
    as [Hagain Hcached].
  - by vm_compute.
  - split; [exact Hagain|]. apply Hcached. by vm_compute.
Defined.

Lemma ensure_cached_stops_at_first_failure_witness :
  (ensure_cached "prisma" "/cache" cache_path fetch_but_fmt partly_cached).1
    = Raise ValueError ∧
  downloads (ensure_cached "prisma" "/cache" cache_path fetch_but_fmt partly_cached).2
    = [ {| name := "query-engine"; env := "PRISMA_QUERY_ENGINE_BINARY" |};
        {| name := "prisma-fmt"; env := "PRISMA_FMT_BINARY" |} ].
Proof.
  apply (ensure_cached_stops_at_first_failure "prisma" "/cache" cache_path fetch_but_fmt
           partly_cached
           [ {| name := "query-engine"; env := "PRISMA_QUERY_ENGINE_BINARY" |} ]
           {| name := "prisma-fmt"; env := "PRISMA_FMT_BINARY" |} [] ValueError).
  - by vm_compute.
  - by vm_compute.
  - intros b files Hb. apply list_elem_of_singleton in Hb as ->. reflexivity.
  - reflexivity.
Defined.


End MoreBinariesWitnesses.
